(** * auracargo admin dashboard: payments page and loading spinner

    A shallow embedding of the logic of
    [src/pages/admin/PaymentsManagement.tsx] and
    [src/components/LoadingSpinner.tsx], and the properties of the
    specification proved (or refuted) over it.

    Conventions of the embedding.
    - A JavaScript string is a Rocq [string] holding the UTF-8 bytes of
      the text (the payments come from the database as well-formed text).
      [trim] knows every white-space character of the language in that
      encoding.  [toLowerCase] folds the letters A to Z and leaves every
      other byte alone, and [sliceFromStart] counts bytes: both are what
      JavaScript does on ASCII text, and the fold is also exact where its
      result is compared with one of the status words.  Properties that
      need more of them are stated for ASCII text.
    - A JavaScript number is a binary64 [float] of the kernel; the sums and
      the quotient of the page are computed with the machine operations.
    - [null] and [undefined] of an optional field are [None].
    - React state is a record, and every event is a function on it. *)

From Stdlib Require Import Bool Arith ZArith Lia List Permutation.
From Stdlib Require Import Ascii String DecimalString DecimalN Floats.
Import ListNotations.

Open Scope string_scope.

(* ================================================================== *)
(** ** The JavaScript built-ins the two components call                *)
(* ================================================================== *)

Module JS.

(** *** Strings *)

(** Every byte is below 128: the text is ASCII, where a byte, a UTF-16 code
    unit and a character are the same thing. *)
Fixpoint isAscii (s : string) : bool :=
  match s with
  | EmptyString => true
  | String c s' => (nat_of_ascii c <? 128)%nat && isAscii s'
  end.

Definition isAsciiOpt (o : option string) : bool :=
  match o with
  | None => true
  | Some s => isAscii s
  end.

(** [String.prototype.toLowerCase] on one ASCII character. *)
Definition lower_char (c : ascii) : ascii :=
  let n := nat_of_ascii c in
  if ((65 <=? n) && (n <=? 90))%nat then ascii_of_nat (n + 32) else c.

Fixpoint toLowerCase (s : string) : string :=
  match s with
  | EmptyString => EmptyString
  | String c s' => String (lower_char c) (toLowerCase s')
  end.

(** [String.prototype.includes]: [sub] occurs somewhere in [s]. *)
Fixpoint includes (s sub : string) : bool :=
  if prefix sub s then true
  else match s with
       | EmptyString => false
       | String _ s' => includes s' sub
       end.

(** ToBoolean on a string: only the empty string is falsy. *)
Definition truthy (s : string) : bool :=
  match s with
  | EmptyString => false
  | String _ _ => true
  end.

(** ToBoolean on [string | null]. *)
Definition truthy_opt (o : option string) : bool :=
  match o with
  | None => false
  | Some s => truthy s
  end.

(** [o || ""] for [o : string | null]. *)
Definition or_empty (o : option string) : string :=
  match o with
  | None => ""
  | Some s => s
  end.

(** White space and line terminators of the language that take one byte:
    TAB, LF, VT, FF, CR and SP. *)
Definition isWhiteSpace (c : ascii) : bool :=
  let n := nat_of_ascii c in
  (((9 <=? n) && (n <=? 13)) || (n =? 32))%nat.

(** The one that takes two bytes: U+00A0, the no-break space. *)
Definition isWhiteSpace2 (c1 c2 : ascii) : bool :=
  ((nat_of_ascii c1 =? 194) && (nat_of_ascii c2 =? 160))%nat.

(** Those that take three bytes: U+1680, U+2000 to U+200A, the line and
    paragraph separators U+2028 and U+2029, U+202F, U+205F, U+3000 and the
    byte order mark U+FEFF. *)
Definition isWhiteSpace3 (c1 c2 c3 : ascii) : bool :=
  let n1 := nat_of_ascii c1 in
  let n2 := nat_of_ascii c2 in
  let n3 := nat_of_ascii c3 in
  (((n1 =? 225) && (n2 =? 154) && (n3 =? 128))
   || ((n1 =? 226) && (n2 =? 128)
       && (((128 <=? n3) && (n3 <=? 138)) || (n3 =? 168) || (n3 =? 169)
           || (n3 =? 175)))
   || ((n1 =? 226) && (n2 =? 129) && (n3 =? 159))
   || ((n1 =? 227) && (n2 =? 128) && (n3 =? 128))
   || ((n1 =? 239) && (n2 =? 187) && (n3 =? 191)))%nat.

(** [String.prototype.trimStart]: drop white-space characters from the
    front. *)
Fixpoint trimStart (s : string) : string :=
  match s with
  | EmptyString => EmptyString
  | String c1 s1 =>
      if isWhiteSpace c1 then trimStart s1
      else match s1 with
           | EmptyString => s
           | String c2 s2 =>
               if isWhiteSpace2 c1 c2 then trimStart s2
               else match s2 with
                    | EmptyString => s
                    | String c3 s3 =>
                        if isWhiteSpace3 c1 c2 c3 then trimStart s3 else s
                    end
           end
  end.

(** The string is made of white-space characters only. *)
Fixpoint isBlank (s : string) : bool :=
  match s with
  | EmptyString => true
  | String c1 s1 =>
      if isWhiteSpace c1 then isBlank s1
      else match s1 with
           | EmptyString => false
           | String c2 s2 =>
               if isWhiteSpace2 c1 c2 then isBlank s2
               else match s2 with
                    | EmptyString => false
                    | String c3 s3 =>
                        if isWhiteSpace3 c1 c2 c3 then isBlank s3 else false
                    end
           end
  end.

(** [String.prototype.trimEnd]: cut where only white space follows.  A
    white-space character never begins with a continuation byte, so the cut
    falls between two characters. *)
Fixpoint trimEnd (s : string) : string :=
  match s with
  | EmptyString => EmptyString
  | String c s' => if isBlank s then EmptyString else String c (trimEnd s')
  end.

(** [String.prototype.trim]. *)
Definition trim (s : string) : string := trimEnd (trimStart s).

(** The string begins with a white-space character. *)
Definition headWhite (s : string) : bool :=
  match s with
  | EmptyString => false
  | String c1 s1 =>
      isWhiteSpace c1
      || match s1 with
         | EmptyString => false
         | String c2 s2 =>
             isWhiteSpace2 c1 c2
             || match s2 with
                | EmptyString => false
                | String c3 _ => isWhiteSpace3 c1 c2 c3
                end
         end
  end.

(** *** Numbers *)

(** [Number(x)] on a value that is a number already. *)
Definition Number (x : float) : float := x.

(** The Number of an array length or of a count.  Lengths of JavaScript
    arrays stay below 2^32, where the conversion is exact. *)
Definition NumberOfLength (n : nat) : float :=
  of_uint63 (Uint63.of_Z (Z.of_nat n)).

(** The decimal digits of a non-negative integer, ["0"] for zero. *)
Definition digits (n : Z) : string :=
  NilZero.string_of_uint (N.to_uint (Z.to_N n)).

Fixpoint zeros (k : nat) : string :=
  match k with
  | O => EmptyString
  | S k' => String "0" (zeros k')
  end.

(** Number.prototype.toFixed, the step that picks the integer [n] for which
    [n / 10^f - x] is as close to zero as possible, the larger [n] when two
    are as close; here [x = m * 2^e] exactly. *)
Definition nearestScaled (m : positive) (e : Z) (f : nat) : Z :=
  let num := (Zpos m * 10 ^ Z.of_nat f)%Z in
  if (0 <=? e)%Z then (num * 2 ^ e)%Z
  else ((2 * num + 2 ^ (- e)) / 2 ^ (1 - e))%Z.

(** Number.prototype.toFixed, the steps that write [n] with [f] digits after
    the point: pad the digits of [n] with zeros up to [f + 1] characters and
    put the point before the last [f]. *)
Definition fixedNotation (n : Z) (f : nat) : string :=
  let m := digits n in
  match f with
  | O => m
  | S _ =>
      let k := String.length m in
      let m' := if (k <=? f)%nat then zeros (f + 1 - k) ++ m else m in
      let k' := String.length m' in
      substring 0 (k' - f) m' ++ "." ++ substring (k' - f) f m'
  end.

(** [x >= 10^21] for [x = m * 2^e]. *)
Definition atLeast1e21 (m : positive) (e : Z) : bool :=
  if (0 <=? e)%Z then (10 ^ 21 <=? Zpos m * 2 ^ e)%Z
  else (10 ^ 21 * 2 ^ (- e) <=? Zpos m)%Z.

(** Number::toString looks for the fewest digits [s] and a power [p] with
    [s * 10^p] rounding to the number.  [pickAt] tries one power [p]: of the
    two multiples of [10^p] around [X] it keeps those within the rounding
    interval [lo, hi] of [X] (its ends included when the significand is
    even), the one closer to [X] when both are, the even one on a tie. *)
Definition pickAt (X lo hi : Z) (closed : bool) (p : Z) : option Z :=
  let inside v :=
    if closed then ((lo <=? v) && (v <=? hi))%Z else ((lo <? v) && (v <? hi))%Z in
  let s1 := (X / 10 ^ p)%Z in
  let s2 := (s1 + 1)%Z in
  let ok1 := (0 <? s1)%Z && inside (s1 * 10 ^ p)%Z in
  let ok2 := inside (s2 * 10 ^ p)%Z in
  match ok1, ok2 with
  | true, true =>
      let d1 := (X - s1 * 10 ^ p)%Z in
      let d2 := (s2 * 10 ^ p - X)%Z in
      if (d1 <? d2)%Z then Some s1
      else if (d2 <? d1)%Z then Some s2
      else if Z.even s1 then Some s1 else Some s2
  | true, false => Some s1
  | false, true => Some s2
  | false, false => None
  end.

(** The largest power below [fuel] at which [pickAt] succeeds; at power 0 it
    always does, with [X] itself. *)
Fixpoint shortest (fuel : nat) (X lo hi : Z) (closed : bool) : Z * Z :=
  match fuel with
  | O => (X, 0%Z)
  | S fuel' =>
      match pickAt X lo hi closed (Z.of_nat fuel') with
      | Some s => (s, Z.of_nat fuel')
      | None => shortest fuel' X lo hi closed
      end
  end.

(** Number::toString of [m * 2^e] when it is at least [10^21] (so [e] is at
    least 17 for a binary64 significand), which always takes the exponential
    form: one digit, the others after a point if any, ["e+"] and the decimal
    exponent. *)
Definition toStringLarge (m : positive) (e : Z) : string :=
  let X := (Zpos m * 2 ^ e)%Z in
  let up := (2 ^ (e - 1))%Z in
  let down := if (Zpos m =? 2 ^ 52)%Z then (2 ^ (e - 2))%Z else up in
  let '(s, p) :=
    shortest (S (String.length (digits X))) X (X - down)%Z (X + up)%Z
             (Z.even (Zpos m)) in
  let ds := digits s in
  let expo := (Z.of_nat (String.length ds) + p - 1)%Z in
  match ds with
  | EmptyString => ds
  | String d EmptyString => String d ("e+" ++ digits expo)
  | String d rest => String d ("." ++ rest ++ "e+" ++ digits expo)
  end.

(** [x.toFixed(fractionDigits)], for [fractionDigits] between 0 and 100 (the
    page passes 1 and 2; beyond 100 JavaScript raises a RangeError). *)
Definition toFixed (x : float) (fractionDigits : nat) : string :=
  match Prim2SF x with
  | S754_nan => "NaN"
  | S754_infinity sign => if sign then "-Infinity" else "Infinity"
  | S754_zero _ => fixedNotation 0 fractionDigits
  | S754_finite sign m e =>
      (if sign then "-" else "")
      ++ (if atLeast1e21 m e then toStringLarge m e
          else fixedNotation (nearestScaled m e fractionDigits) fractionDigits)
  end.

(** The amounts on which [toFixed] writes an unsigned fixed-point number:
    zero and the positive finite numbers below [10^21]. *)
Definition fixedRange (x : float) : bool :=
  match Prim2SF x with
  | S754_zero _ => true
  | S754_finite false m e => negb (atLeast1e21 m e)
  | _ => false
  end.

(** Every character is a decimal digit. *)
Fixpoint allDigits (s : string) : bool :=
  match s with
  | EmptyString => true
  | String c s' =>
      let n := nat_of_ascii c in
      ((48 <=? n) && (n <=? 57))%nat && allDigits s'
  end.

(** [s.slice(0, n)] on ASCII text: the first [n] characters.  (On other
    text JavaScript counts UTF-16 code units, not bytes.) *)
Definition sliceFromStart (n : nat) (s : string) : string := substring 0 n s.

(** The number a run of decimal digits denotes, read from the left with
    [acc] as the value of what was read so far. *)
Fixpoint numeral (acc : Z) (s : string) : Z :=
  match s with
  | EmptyString => acc
  | String c s' => numeral (10 * acc + (Z.of_nat (nat_of_ascii c) - 48))%Z s'
  end.

(** [n] is the integer nearest to [scale] times the exact value of the finite
    number [x], the larger one when two are as near. *)
Definition nearestTo (x : float) (scale n : Z) : Prop :=
  match Prim2SF x with
  | S754_zero _ => n = 0%Z
  | S754_finite false m e =>
      ((2 * n - 1) * 2 ^ Z.max 0 (- e)
       <= 2 * (Zpos m * scale) * 2 ^ Z.max 0 e
       < (2 * n + 1) * 2 ^ Z.max 0 (- e))%Z
  | _ => False
  end.

End JS.

(* ================================================================== *)
(** ** PaymentsManagement.tsx                                          *)
(* ================================================================== *)

Module PaymentsManagement.
Import JS.

(** The joined [profiles] sub-record. *)
Record Profile := mkProfile {
  email : string;
  first_name : option string;
  last_name : option string
}.

(** [interface Payment]. *)
Record Payment := mkPayment {
  id : string;
  amount : float;
  status : string;
  payment_method : string;
  created_at : string;
  transaction_id : option string;
  payment_reference : option string;
  payment_provider : option string;
  currency : string;
  profiles : option Profile
}.

(** *** The search filter *)

(** [field?.toLowerCase().includes(searchTerm.toLowerCase())]: the optional
    chain yields [undefined] on an absent field. *)
Definition chainIncludes (field : option string) (searchTerm : string)
  : option bool :=
  match field with
  | None => None
  | Some s => Some (includes (toLowerCase s) (toLowerCase searchTerm))
  end.

(** ToBoolean on [boolean | undefined]. *)
Definition truthy_chain (o : option bool) : bool :=
  match o with
  | Some b => b
  | None => false
  end.

(** [payment.profiles?.email && payment.profiles.email.toLowerCase()
    .includes(searchTerm.toLowerCase())], after ToBoolean: an absent profile
    and an empty email are both falsy. *)
Definition emailIncludes (p : Payment) (searchTerm : string) : bool :=
  match profiles p with
  | None => false
  | Some pr =>
      if truthy (email pr)
      then includes (toLowerCase (email pr)) (toLowerCase searchTerm)
      else false
  end.

(** The callback given to [payments.filter]. *)
Definition matchesSearch (searchTerm : string) (p : Payment) : bool :=
  truthy_chain (chainIncludes (transaction_id p) searchTerm)
  || truthy_chain (chainIncludes (payment_reference p) searchTerm)
  || emailIncludes p searchTerm.

Definition filteredPayments (searchTerm : string) (payments : list Payment)
  : list Payment :=
  filter (matchesSearch searchTerm) payments.

(** The three searched fields of the record are ASCII text. *)
Definition asciiFields (p : Payment) : bool :=
  isAsciiOpt (transaction_id p) && isAsciiOpt (payment_reference p)
  && match profiles p with
     | Some pr => isAscii (email pr)
     | None => true
     end.

(** A record the empty search term keeps: some searched field is there. *)
Definition hasSearchableField (p : Payment) : bool :=
  match transaction_id p, payment_reference p with
  | Some _, _ => true
  | _, Some _ => true
  | None, None =>
      match profiles p with
      | Some pr => truthy (email pr)
      | None => false
      end
  end.

(** *** Badge variant *)

Definition getStatusVariant (status : string) : string :=
  if status =? "paid" then "default"
  else if status =? "Completed" then "default"
  else if status =? "pending" then "secondary"
  else if status =? "Pending" then "secondary"
  else if status =? "failed" then "destructive"
  else if status =? "Failed" then "destructive"
  else "outline".

(** *** Customer name *)

Definition getCustomerName (payment : Payment) : string :=
  match profiles payment with
  | None => "Unknown"
  | Some pr =>
      let firstName := or_empty (first_name pr) in
      let lastName := or_empty (last_name pr) in
      if truthy firstName || truthy lastName
      then trim (firstName ++ " " ++ lastName)
      else email pr
  end.

(** *** Provider link *)

Definition provider_is (o : option string) (name : string) : bool :=
  match o with
  | Some s => s =? name
  | None => false
  end.

Definition getPaymentProviderLink (payment : Payment) : option string :=
  if provider_is (payment_provider payment) "paystack"
     && truthy_opt (payment_reference payment)
  then match payment_reference payment with
       | Some reference =>
           Some ("https://dashboard.paystack.com/#/transactions/" ++ reference)
       | None => Some "https://dashboard.paystack.com/#/transactions/null"
       end
  else None.

(** *** Status buckets of the summary cards *)

Definition isPaid (p : Payment) : bool :=
  (toLowerCase (status p) =? "paid") || (toLowerCase (status p) =? "completed").

Definition isPending (p : Payment) : bool :=
  toLowerCase (status p) =? "pending".

Definition isFailed (p : Payment) : bool :=
  toLowerCase (status p) =? "failed".

(** The status falls into one of the three buckets. *)
Definition recognized (p : Payment) : bool :=
  isPaid p || isPending p || isFailed p.

Definition completedCount (payments : list Payment) : nat :=
  List.length (filter isPaid payments).

Definition pendingCount (payments : list Payment) : nat :=
  List.length (filter isPending payments).

Definition failedCount (payments : list Payment) : nat :=
  List.length (filter isFailed payments).

(** *** Revenue sums and success rate *)

(** [payments.reduce((sum, payment) => keep(payment) ? sum +
    Number(payment.amount) : sum, 0)]. *)
Definition reduceRevenue (keep : Payment -> bool) (payments : list Payment)
  : float :=
  fold_left
    (fun sum payment =>
       if keep payment then (sum + Number (amount payment))%float else sum)
    payments 0%float.

Definition totalRevenue (payments : list Payment) : float :=
  reduceRevenue isPaid payments.

Definition pendingRevenue (payments : list Payment) : float :=
  reduceRevenue isPending payments.

Definition failedRevenue (payments : list Payment) : float :=
  reduceRevenue isFailed payments.

(** The text of the success-rate card once loading is over. *)
Definition successRate (payments : list Payment) : string :=
  if (0 <? List.length payments)%nat
  then toFixed
         (NumberOfLength (completedCount payments)
          / NumberOfLength (List.length payments) * 100)%float 1
       ++ "%"
  else "0%".

(** The sum the specification speaks of: the amounts added from the left,
    starting at 0. *)
Definition sumAmounts (payments : list Payment) : float :=
  fold_left (fun sum payment => (sum + amount payment)%float) payments 0%float.

(** *** Currency *)

Section Locale.

(** [Number.prototype.toLocaleString] depends on the locale of the browser
    and is left open. *)
Variable toLocaleString : float -> string.

Definition formatCurrency (amount : float) (currency : string) : string :=
  if currency =? "NGN"
  then "₦" ++ toLocaleString amount
  else "$" ++ toFixed amount 2.

(** The call without a currency takes the default parameter ["USD"]. *)
Definition formatCurrencyDefault (amount : float) : string :=
  formatCurrency amount "USD".

(** The amount cell of a table row. *)
Definition amountCell (payment : Payment) : string :=
  formatCurrency (Number (amount payment)) (currency payment).

End Locale.

(** A dollar sign, at least one digit, a point and exactly two digits. *)
Definition dollarsAndCents (s : string) : Prop :=
  exists whole cents : string,
    s = "$" ++ whole ++ "." ++ cents
    /\ whole <> "" /\ allDigits whole = true
    /\ String.length cents = 2 /\ allDigits cents = true.

(** *** Component state and the fetch on mount *)

Record State := mkState {
  searchTerm : string;
  payments : list Payment;
  isLoading : bool;
  error : option string
}.

(** The four [useState] initial values. *)
Definition initialState : State :=
  {| searchTerm := ""; payments := []; isLoading := true; error := None |}.

(** What a run can touch: the component state and the console. *)
Record World := mkWorld {
  state : State;
  console : list string
}.

(** An error object, of which the page reads [message] only. *)
Record ErrorObject := mkError { message : string }.

Inductive Completion (A : Type) : Type :=
| Normal (a : A)
| Throw (err : ErrorObject).
Arguments Normal {A} a.
Arguments Throw {A} err.

(** Statements of the async function: they change the world and end
    normally or by throwing. *)
Definition Eff (A : Type) : Type := World -> Completion A * World.

Definition ret {A} (a : A) : Eff A := fun w => (Normal a, w).

Definition throw {A} (err : ErrorObject) : Eff A := fun w => (Throw err, w).

Definition bind {A B} (c : Eff A) (k : A -> Eff B) : Eff B :=
  fun w =>
    match c w with
    | (Normal a, w') => k a w'
    | (Throw err, w') => (Throw err, w')
    end.

Notation "x <- c ;; k" := (bind c (fun x => k))
  (at level 61, c at next level, right associativity).
Notation "c ;; k" := (bind c (fun _ => k))
  (at level 61, right associativity).

(** [try { body } catch (err) { handler } finally { final }]. *)
Definition tryCatchFinally (body : Eff unit) (handler : ErrorObject -> Eff unit)
    (final : Eff unit) : Eff unit :=
  fun w =>
    let '(r, w1) :=
      match body w with
      | (Normal a, w') => (Normal a, w')
      | (Throw err, w') => handler err w'
      end in
    match final w1 with
    | (Normal _, w2) => (r, w2)
    | (Throw err, w2) => (Throw err, w2)
    end.

Definition modify (f : State -> State) : Eff unit :=
  fun w => (Normal tt, {| state := f (state w); console := console w |}).

Definition setPayments (ps : list Payment) : Eff unit :=
  modify (fun s => {| searchTerm := searchTerm s; payments := ps;
                      isLoading := isLoading s; error := error s |}).

Definition setIsLoading (b : bool) : Eff unit :=
  modify (fun s => {| searchTerm := searchTerm s; payments := payments s;
                      isLoading := b; error := error s |}).

Definition setError (e : option string) : Eff unit :=
  modify (fun s => {| searchTerm := searchTerm s; payments := payments s;
                      isLoading := isLoading s; error := e |}).

(** The [onChange] handler of the search box. *)
Definition setSearchTerm (term : string) (s : State) : State :=
  {| searchTerm := term; payments := payments s;
     isLoading := isLoading s; error := error s |}.

Definition consoleError (label msg : string) : Eff unit :=
  fun w => (Normal tt, {| state := state w;
                          console := console w ++ [label ++ " " ++ msg] |}).

(** How the awaited query ends: it settles to an object with [data] and
    [error], or it is rejected with an error object, that is, with a value
    that has a [message], as the query client and [fetch] throw them.  (A
    rejection with [null] or [undefined], on which reading [err.message] in
    the catch block would itself throw, is not among the outcomes.) *)
Inductive QueryOutcome : Type :=
| Settled (data : option (list Payment)) (err : option ErrorObject)
| Rejected (err : ErrorObject).

Definition awaitQuery (q : QueryOutcome)
  : Eff (option (list Payment) * option ErrorObject) :=
  match q with
  | Settled data err => ret (data, err)
  | Rejected err => throw err
  end.

Definition fetchPayments (q : QueryOutcome) : Eff unit :=
  setIsLoading true ;;
  setError None ;;
  tryCatchFinally
    (r <- awaitQuery q ;;
     match snd r with
     | Some err => throw err
     | None =>
         setPayments (match fst r with Some data => data | None => [] end)
     end)
    (fun err =>
       consoleError "Error fetching payments:" (message err) ;;
       setError (Some (message err)))
    (setIsLoading false).

(** The effect with the empty dependency list: one fetch, from the initial
    state. *)
Definition mount (q : QueryOutcome) : World :=
  snd (fetchPayments q {| state := initialState; console := [] |}).

(** The error the fetch raises, if it raises one. *)
Definition raised (q : QueryOutcome) : option ErrorObject :=
  match q with
  | Settled _ err => err
  | Rejected err => Some err
  end.

(** *** What one render shows *)

Record View := mkView {
  cardTotalRevenue : string;
  cardCompleted : string + nat;
  cardPendingRevenue : string;
  cardPending : string + nat;
  cardFailedRevenue : string;
  cardFailed : string + nat;
  cardSuccessRate : string;
  rows : list Payment
}.

(** The body of the component: the table rows come from [filteredPayments],
    every card from [payments]. *)
Definition render (s : State) : View :=
  let shown := filteredPayments (searchTerm s) (payments s) in
  let loading := isLoading s in
  {| cardTotalRevenue :=
       "$" ++ (if loading then "..." else toFixed (totalRevenue (payments s)) 2);
     cardCompleted :=
       if loading then inl "..." else inr (completedCount (payments s));
     cardPendingRevenue :=
       "$" ++ (if loading then "..." else toFixed (pendingRevenue (payments s)) 2);
     cardPending :=
       if loading then inl "..." else inr (pendingCount (payments s));
     cardFailedRevenue :=
       "$" ++ (if loading then "..." else toFixed (failedRevenue (payments s)) 2);
     cardFailed :=
       if loading then inl "..." else inr (failedCount (payments s));
     cardSuccessRate :=
       if loading then "..." else successRate (payments s);
     rows := shown |}.

(** The seven aggregates of a state, before they are turned into text. *)
Record Aggregates := mkAggregates {
  aggTotalRevenue : float;
  aggPendingRevenue : float;
  aggFailedRevenue : float;
  aggCompletedCount : nat;
  aggPendingCount : nat;
  aggFailedCount : nat;
  aggSuccessRate : string
}.

Definition aggregates (s : State) : Aggregates :=
  {| aggTotalRevenue := totalRevenue (payments s);
     aggPendingRevenue := pendingRevenue (payments s);
     aggFailedRevenue := failedRevenue (payments s);
     aggCompletedCount := completedCount (payments s);
     aggPendingCount := pendingCount (payments s);
     aggFailedCount := failedCount (payments s);
     aggSuccessRate := successRate (payments s) |}.

(** [shown] is [all] with some elements left out, the others in their
    order. *)
Inductive subsequence {A : Type} : list A -> list A -> Prop :=
| subsequence_nil : subsequence [] []
| subsequence_keep (x : A) (shown all : list A) :
    subsequence shown all -> subsequence (x :: shown) (x :: all)
| subsequence_drop (x : A) (shown all : list A) :
    subsequence shown all -> subsequence shown (x :: all).

(** *** The table *)

(** [payment.transaction_id || payment.id.slice(0, 8)]. *)
Definition paymentIdCell (payment : Payment) : string :=
  if truthy_opt (transaction_id payment)
  then or_empty (transaction_id payment)
  else sliceFromStart 8 (id payment).

(** [payment.payment_reference || '-']. *)
Definition referenceCell (payment : Payment) : string :=
  if truthy_opt (payment_reference payment)
  then or_empty (payment_reference payment)
  else "-".

(** [getPaymentProviderLink(payment) && <a href=...>]: the row has the
    external-link action. *)
Definition hasLinkAction (payment : Payment) : bool :=
  truthy_opt (getPaymentProviderLink payment).

(** What the bordered box under the search field shows. *)
Inductive Body : Type :=
| LoadingText               (* "Loading payments..." *)
| ErrorText (text : string) (* "Error: " and the message *)
| TableRows (shown : list Payment)
| NoPaymentsFound.

Definition body (s : State) : Body :=
  if isLoading s then LoadingText
  else if truthy_opt (error s) then ErrorText ("Error: " ++ or_empty (error s))
  else if (0 <? List.length (filteredPayments (searchTerm s) (payments s)))%nat
       then TableRows (filteredPayments (searchTerm s) (payments s))
       else NoPaymentsFound.

(** A payment with another currency code. *)
Definition withCurrency (code : string) (p : Payment) : Payment :=
  {| id := id p; amount := amount p; status := status p;
     payment_method := payment_method p; created_at := created_at p;
     transaction_id := transaction_id p;
     payment_reference := payment_reference p;
     payment_provider := payment_provider p; currency := code;
     profiles := profiles p |}.

(** *** Sample records *)

Definition samplePayment (status : string) (amount : float) : Payment :=
  {| id := "6f1c2a9e-0000-4000-8000-000000000001"; amount := amount;
     status := status; payment_method := "card";
     created_at := "2024-01-01T00:00:00Z"; transaction_id := Some "TX-1";
     payment_reference := Some "ref_1"; payment_provider := Some "paystack";
     currency := "USD";
     profiles := Some {| email := "ada@example.com";
                         first_name := Some "Ada";
                         last_name := Some "Lovelace" |} |}.

(** The three payments of the scenario of the specification. *)
Definition scenarioPayments : list Payment :=
  [samplePayment "paid" 100; samplePayment "Pending" 50;
   samplePayment "failed" 25].

(** The payment of a deleted user, with no transaction id and no
    reference. *)
Definition orphanPayment : Payment :=
  {| id := "6f1c2a9e-0000-4000-8000-000000000002"; amount := 100;
     status := "paid"; payment_method := "card";
     created_at := "2024-01-01T00:00:00Z"; transaction_id := None;
     payment_reference := None; payment_provider := None;
     currency := "USD"; profiles := None |}.

(** A payment whose user typed a blank as first name. *)
Definition blankNamePayment : Payment :=
  {| id := "6f1c2a9e-0000-4000-8000-000000000003"; amount := 100;
     status := "paid"; payment_method := "card";
     created_at := "2024-01-01T00:00:00Z"; transaction_id := Some "TX-3";
     payment_reference := Some "ref_3"; payment_provider := Some "paystack";
     currency := "USD";
     profiles := Some {| email := "ada@example.com";
                         first_name := Some " ";
                         last_name := None |} |}.


(** A payment whose profile has no names and the empty string as email. *)
Definition emptyEmailPayment : Payment :=
  {| id := "6f1c2a9e-0000-4000-8000-000000000005"; amount := 100;
     status := "paid"; payment_method := "card";
     created_at := "2024-01-01T00:00:00Z"; transaction_id := Some "TX-5";
     payment_reference := Some "ref_5"; payment_provider := Some "paystack";
     currency := "USD";
     profiles := Some {| email := ""; first_name := None;
                         last_name := None |} |}.

(** A paystack payment whose reference is the empty string. *)
Definition emptyReferencePayment : Payment :=
  {| id := "6f1c2a9e-0000-4000-8000-000000000004"; amount := 100;
     status := "paid"; payment_method := "card";
     created_at := "2024-01-01T00:00:00Z"; transaction_id := Some "TX-4";
     payment_reference := Some ""; payment_provider := Some "paystack";
     currency := "USD"; profiles := None |}.

End PaymentsManagement.

(* ================================================================== *)
(** ** LoadingSpinner.tsx                                              *)
(* ================================================================== *)

Module LoadingSpinner.

(** The two [useState] cells. *)
Record State := mkState {
  timeoutReached : bool;
  loadingTime : Z
}.

(** The closures handed to the timers. *)
Inductive Callback : Type :=
| ReachTimeout   (* setTimeoutReached(true); console.log(...) *)
| CountSecond.   (* setLoadingTime(prev => prev + 1) *)

(** A timer of the browser: its handle, the millisecond at which it is due,
    and its period when it was made by [setInterval]. *)
Record Timer := mkTimer {
  handle : nat;
  due : Z;
  every : option Z;
  callback : Callback
}.

(** Simulated time in milliseconds since the mount, the active timers in
    the order of their registration, the [timeout] prop, the component
    state, the console, and the two handles the cleanup closure of the
    effect holds. *)
Record World := mkWorld {
  now : Z;
  timers : list Timer;
  nextHandle : nat;
  timeout : Z;
  state : State;
  console : list string;
  cleanup : option (nat * nat)
}.

Definition defaultSize : nat := 40.
Definition defaultTimeout : Z := 10000.

Definition withTimers (ts : list Timer) (n : nat) (w : World) : World :=
  {| now := now w; timers := ts; nextHandle := n; timeout := timeout w;
     state := state w; console := console w; cleanup := cleanup w |}.

Definition withCleanup (c : option (nat * nat)) (w : World) : World :=
  {| now := now w; timers := timers w; nextHandle := nextHandle w;
     timeout := timeout w; state := state w; console := console w;
     cleanup := c |}.

(** The delay argument of the timer functions is a signed 32-bit integer
    for the platform: a larger number wraps around. *)
Definition toInt32 (x : Z) : Z := ((x + 2 ^ 31) mod 2 ^ 32 - 2 ^ 31)%Z.

(** The delay a timer really gets: the 32-bit value, or 0 when that is
    negative. *)
Definition timerDelay (delay : Z) : Z := Z.max 0 (toInt32 delay).

(** Timers run in turns of the event loop after the code that set them, so
    even a delay of 0 leads to the first turn, one millisecond step later in
    this clock. *)
Definition firstTurn (delay : Z) : Z := Z.max 1 (timerDelay delay).

Definition setTimeout (cb : Callback) (delay : Z) (w : World) : nat * World :=
  (nextHandle w,
   withTimers
     (timers w
      ++ [mkTimer (nextHandle w) (now w + timerDelay delay)%Z None cb])
     (S (nextHandle w)) w).

Definition setInterval (cb : Callback) (delay : Z) (w : World) : nat * World :=
  (nextHandle w,
   withTimers
     (timers w
      ++ [mkTimer (nextHandle w) (now w + timerDelay delay)%Z
                  (Some (timerDelay delay)) cb])
     (S (nextHandle w)) w).

Definition clearTimeout (h : nat) (w : World) : World :=
  withTimers (filter (fun t => negb (handle t =? h)%nat) (timers w))
             (nextHandle w) w.

Definition clearInterval (h : nat) (w : World) : World := clearTimeout h w.

(** The body of [useEffect]: start both timers and keep their handles for
    the cleanup. *)
Definition effect (w : World) : World :=
  let '(timeoutId, w1) := setTimeout ReachTimeout (timeout w) w in
  let '(interval, w2) := setInterval CountSecond 1000 w1 in
  withCleanup (Some (timeoutId, interval)) w2.

(** The function the effect returns. *)
Definition runCleanup (w : World) : World :=
  match cleanup w with
  | Some (timeoutId, interval) =>
      withCleanup None (clearInterval interval (clearTimeout timeoutId w))
  | None => w
  end.

Definition mount (timeoutProp : Z) : World :=
  effect {| now := 0; timers := []; nextHandle := 1; timeout := timeoutProp;
            state := {| timeoutReached := false; loadingTime := 0 |};
            console := []; cleanup := None |}.

Definition unmount (w : World) : World := runCleanup w.

(** A render with a new [timeout] prop: the dependency list [[timeout]]
    reruns the effect, after its cleanup, only when the prop changed. *)
Definition rerender (timeoutProp : Z) (w : World) : World :=
  if (timeoutProp =? timeout w)%Z then w
  else
    let w' := runCleanup w in
    effect {| now := now w'; timers := timers w'; nextHandle := nextHandle w';
              timeout := timeoutProp; state := state w';
              console := console w'; cleanup := cleanup w' |}.

(** Running a callback. *)
Definition run (cb : Callback) (w : World) : World :=
  match cb with
  | ReachTimeout =>
      {| now := now w; timers := timers w; nextHandle := nextHandle w;
         timeout := timeout w;
         state := {| timeoutReached := true;
                     loadingTime := loadingTime (state w) |};
         console := console w ++ ["Loading timeout reached"];
         cleanup := cleanup w |}
  | CountSecond =>
      {| now := now w; timers := timers w; nextHandle := nextHandle w;
         timeout := timeout w;
         state := {| timeoutReached := timeoutReached (state w);
                     loadingTime := (loadingTime (state w) + 1)%Z |};
         console := console w; cleanup := cleanup w |}
  end.

Definition isActive (h : nat) (w : World) : bool :=
  existsb (fun t => (handle t =? h)%nat) (timers w).

(** A due timer fires if it was not cleared meanwhile: a one-shot timer
    leaves the list, an interval is due again one period later. *)
Definition fire (w : World) (t : Timer) : World :=
  if isActive (handle t) w then
    let ts :=
      match every t with
      | None => filter (fun u => negb (handle u =? handle t)%nat) (timers w)
      | Some period =>
          map (fun u =>
                 if (handle u =? handle t)%nat
                 then mkTimer (handle u) (due u + period)%Z (every u) (callback u)
                 else u)
              (timers w)
      end in
    run (callback t) (withTimers ts (nextHandle w) w)
  else w.

(** One millisecond passes, then the timers that are due fire in the order
    of their registration. *)
Definition tick (w : World) : World :=
  let w1 := {| now := (now w + 1)%Z; timers := timers w;
               nextHandle := nextHandle w; timeout := timeout w;
               state := state w; console := console w;
               cleanup := cleanup w |} in
  fold_left fire (filter (fun t => (due t <=? now w1)%Z) (timers w1)) w1.

Fixpoint advance (ms : nat) (w : World) : World :=
  match ms with
  | O => w
  | S ms' => tick (advance ms' w)
  end.

(** What can happen to a mounted spinner: a millisecond passes, or it is
    rendered again with some [timeout] prop. *)
Inductive Event : Type :=
| Tick
| Rerender (timeoutProp : Z).

Definition handleEvent (w : World) (ev : Event) : World :=
  match ev with
  | Tick => tick w
  | Rerender timeoutProp => rerender timeoutProp w
  end.

Definition history (evs : list Event) (w : World) : World :=
  fold_left handleEvent evs w.

(** The timers of a mounted spinner: the interval, due in the future and
    not before the second after the ones counted, alone or behind the
    pending one-shot timer; the cleanup holds both handles. *)
Definition ticking (w : World) : Prop :=
  exists (a b : nat) (next : Z) (pending : list Timer),
    cleanup w = Some (a, b) /\ a <> b
    /\ timers w
       = List.app pending [mkTimer b next (Some 1000%Z) CountSecond]
    /\ (pending = []
        \/ exists at_, pending = [mkTimer a at_ None ReachTimeout])
    /\ (now w < next)%Z
    /\ (1000 * (loadingTime (state w) + 1) <= next)%Z
    /\ (1000 * loadingTime (state w) <= now w)%Z.

(** The world [d] milliseconds after the effect ran at time [start] with the
    state [base], the console [log], the next free handle [h] and the
    timeout [T], in closed form: the one-shot timer is pending until its
    first turn, the interval is due at the next full second. *)
Definition runningAt (start : Z) (base : State) (log : list string)
    (h : nat) (T : Z) (d : nat) : World :=
  let ms := Z.of_nat d in
  {| now := (start + ms)%Z;
     timers :=
       List.app
         (if (ms <? firstTurn T)%Z
          then [mkTimer h (start + timerDelay T)%Z None ReachTimeout]
          else [])
         [mkTimer (S h) (start + 1000 * (ms / 1000 + 1))%Z (Some 1000%Z)
                  CountSecond];
     nextHandle := S (S h);
     timeout := T;
     state := {| timeoutReached :=
                   timeoutReached base || (firstTurn T <=? ms)%Z;
                 loadingTime := (loadingTime base + ms / 1000)%Z |};
     console :=
       List.app log (if (firstTurn T <=? ms)%Z
                     then ["Loading timeout reached"] else []);
     cleanup := Some (h, S h) |}.

(** The world [t] milliseconds after a mount with timeout [T], in closed
    form. *)
Definition spinnerAt (T : Z) (t : nat) : World :=
  runningAt 0 {| timeoutReached := false; loadingTime := 0 |} [] 1 T t.

End LoadingSpinner.

Module LS := LoadingSpinner.

(* ================================================================== *)
(** ** Properties of the payments page                                 *)
(* ================================================================== *)

Import JS PaymentsManagement.

(** *** The model at work *)

Example toLowerCase_mixed_case :
  toLowerCase "PeNdInG" = "pending" /\ toLowerCase "Completed" = "completed".
Proof. split; reflexivity. Qed.

Example includes_examples :
  includes "tx-001-abc" "001" = true /\ includes "tx-001-abc" "002" = false
  /\ includes "" "" = true.
Proof. repeat split. Qed.

Example trim_examples :
  trim "  Ada  Lovelace " = "Ada  Lovelace" /\ trim "Ada " = "Ada"
  /\ trim "   " = "".
Proof. repeat split. Qed.

Example toFixed_examples :
  toFixed 1234.5 2 = "1234.50" /\ toFixed 0 2 = "0.00"
  /\ toFixed 2.5 0 = "3" /\ toFixed (-1.5) 0 = "-2"
  /\ toFixed 0.125 2 = "0.13" /\ toFixed 99.5 1 = "99.5"
  /\ toFixed 123e18 2 = "123000000000000000000.00"
  /\ toFixed 1e21 2 = "1e+21" /\ toFixed 15e20 2 = "1.5e+21"
  /\ toFixed infinity 2 = "Infinity" /\ toFixed nan 2 = "NaN".
Proof. repeat split; vm_compute; reflexivity. Qed.

Example filteredPayments_by_email :
  filteredPayments "ADA@" scenarioPayments = scenarioPayments
  /\ filteredPayments "tx-2" scenarioPayments = []
  /\ filteredPayments "ada" [orphanPayment; blankNamePayment]
     = [blankNamePayment].
Proof. repeat split. Qed.

Example render_scenario :
  let v := render {| searchTerm := "nobody"; payments := scenarioPayments;
                     isLoading := false; error := None |} in
  cardTotalRevenue v = "$100.00" /\ cardCompleted v = inr 1
  /\ cardSuccessRate v = "33.3%" /\ rows v = [].
Proof. repeat split; vm_compute; reflexivity. Qed.

(** *** Lists and strings *)

Lemma includes_empty (s : string) : includes s "" = true.
Proof. destruct s; reflexivity. Qed.

Lemma filter_fixpoint {A} (f : A -> bool) (l : list A) :
  filter f l = l <-> Forall (fun x => f x = true) l.
Proof.
  split.
  - induction l as [|a l IH]; intros H; [constructor|].
    simpl in H. destruct (f a) eqn:Ha.
    + injection H as H. constructor; auto.
    + exfalso. pose proof (filter_length_le f l) as Hle.
      rewrite H in Hle. simpl in Hle. lia.
  - induction 1 as [|a l Ha _ IH]; simpl; [reflexivity|].
    rewrite Ha, IH. reflexivity.
Qed.

Lemma truthy_true (s : string) : truthy s = true <-> s <> "".
Proof. destruct s; simpl; split; congruence. Qed.


Lemma prefix_iff (a s : string) :
  prefix a s = true <-> exists post, s = a ++ post.
Proof.
  revert s. induction a as [|c a IH]; intros s.
  - split; [intros _; exists s; reflexivity | destruct s; reflexivity].
  - destruct s as [|d s].
    + split; [discriminate | intros [post E]; discriminate E].
    + change (prefix (String c a) (String d s))
        with (if ascii_dec c d then prefix a s else false).
      destruct (ascii_dec c d) as [->|N].
      * rewrite IH. split; intros [post E]; exists post; simpl in *; congruence.
      * split; [discriminate | intros [post E]; simpl in E; congruence].
Qed.

Lemma includes_unfold (s sub : string) :
  includes s sub
  = if prefix sub s then true
    else match s with
         | EmptyString => false
         | String _ s' => includes s' sub
         end.
Proof. destruct s; reflexivity. Qed.

(** [includes] is the substring test. *)
Lemma includes_iff (s sub : string) :
  includes s sub = true <-> exists pre post, s = pre ++ sub ++ post.
Proof.
  split.
  - induction s as [|c s IH]; rewrite includes_unfold;
      destruct (prefix sub _) eqn:P.
    + intros _. apply prefix_iff in P. destruct P as [post E].
      exists "", post. exact E.
    + discriminate.
    + intros _. apply prefix_iff in P. destruct P as [post E].
      exists "", post. exact E.
    + intros H. destruct (IH H) as (pre & post & E).
      exists (String c pre), post. simpl. congruence.
  - intros (pre & post & E). revert s E.
    induction pre as [|c pre IH]; intros s E; rewrite includes_unfold.
    + assert (P : prefix sub s = true) by (apply prefix_iff; eauto).
      rewrite P. reflexivity.
    + subst s. destruct (prefix sub _); [reflexivity|].
      apply IH. reflexivity.
Qed.

(** [nearestScaled m e f] is the integer nearest to [m * 2^e * 10^f], the
    larger one when two are as near. *)
Lemma nearestScaled_nearest (m : positive) (e : Z) (f : nat) :
  let n := nearestScaled m e f in
  let up := (2 ^ Z.max 0 e)%Z in
  let down := (2 ^ Z.max 0 (- e))%Z in
  ((2 * n - 1) * down <= 2 * (Zpos m * 10 ^ Z.of_nat f) * up
   < (2 * n + 1) * down)%Z.
Proof.
  unfold nearestScaled. cbv zeta.
  set (num := (Zpos m * 10 ^ Z.of_nat f)%Z).
  destruct (Z.leb_spec 0 e) as [He|He].
  - rewrite (Z.max_r 0 e), (Z.max_l 0 (- e)) by lia.
    change (2 ^ 0)%Z with 1%Z. lia.
  - rewrite (Z.max_l 0 e), (Z.max_r 0 (- e)) by lia.
    change (2 ^ 0)%Z with 1%Z.
    replace (1 - e)%Z with (Z.succ (- e)) by lia.
    rewrite Z.pow_succ_r by lia.
    assert (D : (0 < 2 ^ (- e))%Z) by (apply Z.pow_pos_nonneg; lia).
    set (d := (2 ^ (- e))%Z) in *.
    pose proof (Z.div_mod (2 * num + d) (2 * d) ltac:(lia)) as E.
    pose proof (Z.mod_pos_bound (2 * num + d) (2 * d) ltac:(lia)) as B.
    set (q := ((2 * num + d) / (2 * d))%Z) in *.
    nia.
Qed.

(** *** The search filter *)

Lemma matchesSearch_empty (p : Payment) :
  matchesSearch "" p = hasSearchableField p.
Proof.
  unfold matchesSearch, hasSearchableField, emailIncludes, chainIncludes.
  destruct (transaction_id p), (payment_reference p), (profiles p) as [pr|];
    simpl; rewrite ?includes_empty; try reflexivity;
    destruct (truthy (email pr)); rewrite ?includes_empty; reflexivity.
Qed.

(** C3, as stated, fails: the empty search term drops a record whose
    transaction id, reference and profile are all absent. *)
Lemma filteredPayments_empty_term_drops_orphan :
  filteredPayments "" [orphanPayment] = []
  /\ filteredPayments "" [orphanPayment] <> [orphanPayment].
Proof. split; [reflexivity | discriminate]. Qed.

(** C3, amended: with the empty search term the filter keeps, in their
    order, exactly the records that have a transaction id, a payment
    reference or a non-empty profile email; it returns the list unchanged
    exactly when every record has one of them. *)
Theorem filteredPayments_empty_term (payments : list Payment) :
  filteredPayments "" payments = filter hasSearchableField payments
  /\ (filteredPayments "" payments = payments
      <-> Forall (fun p => hasSearchableField p = true) payments).
Proof.
  assert (E : filteredPayments "" payments = filter hasSearchableField payments).
  { unfold filteredPayments. apply filter_ext. exact matchesSearch_empty. }
  split; [exact E|]. rewrite E. apply filter_fixpoint.
Qed.

(** *** Badge variant *)

(** C4: the badge variant is an exact, case-sensitive match on the raw
    status: "paid" and "Completed" give "default" (primary), "pending" and
    "Pending" give "secondary", "failed" and "Failed" give "destructive",
    and every other string, "PAID" and "completed" among them, gives
    "outline" (neutral). *)
Theorem getStatusVariant_exact_match (status : string) :
  (getStatusVariant status = "default"
     <-> status = "paid" \/ status = "Completed")
  /\ (getStatusVariant status = "secondary"
     <-> status = "pending" \/ status = "Pending")
  /\ (getStatusVariant status = "destructive"
     <-> status = "failed" \/ status = "Failed")
  /\ (getStatusVariant status = "outline"
     <-> ~ In status ["paid"; "Completed"; "pending"; "Pending";
                      "failed"; "Failed"])
  /\ getStatusVariant "PAID" = "outline"
  /\ getStatusVariant "completed" = "outline".
Proof.
  unfold getStatusVariant.
  destruct (String.eqb_spec status "paid") as [->|N1];
    [simpl; intuition (try discriminate; try congruence)|].
  destruct (String.eqb_spec status "Completed") as [->|N2];
    [simpl; intuition (try discriminate; try congruence)|].
  destruct (String.eqb_spec status "pending") as [->|N3];
    [simpl; intuition (try discriminate; try congruence)|].
  destruct (String.eqb_spec status "Pending") as [->|N4];
    [simpl; intuition (try discriminate; try congruence)|].
  destruct (String.eqb_spec status "failed") as [->|N5];
    [simpl; intuition (try discriminate; try congruence)|].
  destruct (String.eqb_spec status "Failed") as [->|N6];
    [simpl; intuition (try discriminate; try congruence)|].
  simpl; intuition (try discriminate; try congruence).
Qed.

(** *** Provider link *)

(** C7, as stated, fails: a paystack payment whose reference is present but
    empty gets no link. *)
Lemma getPaymentProviderLink_empty_reference :
  payment_provider emptyReferencePayment = Some "paystack"
  /\ payment_reference emptyReferencePayment = Some ""
  /\ getPaymentProviderLink emptyReferencePayment = None.
Proof. repeat split. Qed.

(** C7, amended: the link is absent whenever the provider is not "paystack"
    or the reference is absent or the empty string, and otherwise it is
    "https://dashboard.paystack.com/#/transactions/" followed by the
    reference as it is. *)
Theorem getPaymentProviderLink_spec (payment : Payment) :
  (payment_provider payment <> Some "paystack"
   \/ payment_reference payment = None
   \/ payment_reference payment = Some ""
   -> getPaymentProviderLink payment = None)
  /\ (forall reference,
        payment_provider payment = Some "paystack" ->
        payment_reference payment = Some reference ->
        reference <> "" ->
        getPaymentProviderLink payment
        = Some ("https://dashboard.paystack.com/#/transactions/" ++ reference)).
Proof.
  unfold getPaymentProviderLink, provider_is, truthy_opt. split.
  - intros [H | [H | H]].
    + destruct (payment_provider payment) as [s|]; [|reflexivity].
      destruct (String.eqb_spec s "paystack") as [->|]; [congruence|reflexivity].
    + rewrite H. rewrite andb_false_r. reflexivity.
    + rewrite H. simpl. rewrite andb_false_r. reflexivity.
  - intros reference Hp Hr Hne. rewrite Hp, Hr. simpl.
    apply truthy_true in Hne. rewrite Hne. reflexivity.
Qed.

Lemma getPaymentProviderLink_spec_witness :
  getPaymentProviderLink orphanPayment = None
  /\ getPaymentProviderLink (samplePayment "paid" 100)
     = Some "https://dashboard.paystack.com/#/transactions/ref_1".
Proof.
  split.
  - apply (proj1 (getPaymentProviderLink_spec orphanPayment)).
    left. discriminate.
  - apply (proj2 (getPaymentProviderLink_spec (samplePayment "paid" 100))
             "ref_1"); [reflexivity | reflexivity | discriminate].
Defined.

(** *** Status buckets *)

Lemma buckets_disjoint (p : Payment) :
  (if isPaid p then 1 else 0) + (if isPending p then 1 else 0)
  + (if isFailed p then 1 else 0)
  = if recognized p then 1 else 0.
Proof.
  unfold recognized, isPaid, isPending, isFailed.
  destruct (String.eqb_spec (toLowerCase (status p)) "paid") as [->|];
    [reflexivity|].
  destruct (String.eqb_spec (toLowerCase (status p)) "completed") as [->|];
    [reflexivity|].
  destruct (String.eqb_spec (toLowerCase (status p)) "pending") as [->|];
    [reflexivity|].
  destruct (String.eqb_spec (toLowerCase (status p)) "failed"); reflexivity.
Qed.

Lemma counts_sum (payments : list Payment) :
  completedCount payments + pendingCount payments + failedCount payments
  = List.length (filter recognized payments).
Proof.
  unfold completedCount, pendingCount, failedCount.
  induction payments as [|p ps IH]; [reflexivity|].
  simpl. pose proof (buckets_disjoint p) as D.
  destruct (isPaid p), (isPending p), (isFailed p), (recognized p);
    simpl in *; lia.
Qed.

Lemma filter_length_full {A} (f : A -> bool) (l : list A) :
  List.length (filter f l) = List.length l <-> Forall (fun x => f x = true) l.
Proof.
  split.
  - induction l as [|a l IH]; intros H; [constructor|].
    simpl in H. pose proof (filter_length_le f l) as Hle.
    destruct (f a) eqn:Ha; simpl in H; [|lia].
    constructor; [exact Ha | apply IH; lia].
  - intros H. apply filter_fixpoint in H. rewrite H. reflexivity.
Qed.

(** C2: the three counts never add up to more than the number of payments,
    and they add up to it exactly when the status of every payment is, up
    to letter case, "paid", "completed", "pending" or "failed". *)
Theorem counts_le_total (payments : list Payment) :
  completedCount payments + pendingCount payments + failedCount payments
    <= List.length payments
  /\ (completedCount payments + pendingCount payments + failedCount payments
        = List.length payments
      <-> Forall (fun p =>
                    In (toLowerCase (status p))
                       ["paid"; "completed"; "pending"; "failed"])
                 payments).
Proof.
  rewrite counts_sum. split; [apply filter_length_le|].
  rewrite filter_length_full, !Forall_forall.
  assert (E : forall p, recognized p = true
                <-> In (toLowerCase (status p))
                       ["paid"; "completed"; "pending"; "failed"]);
    [|split; intros H p Hp; apply E; auto].
  intros p. unfold recognized, isPaid, isPending, isFailed. simpl.
  destruct (String.eqb_spec (toLowerCase (status p)) "paid");
  destruct (String.eqb_spec (toLowerCase (status p)) "completed");
  destruct (String.eqb_spec (toLowerCase (status p)) "pending");
  destruct (String.eqb_spec (toLowerCase (status p)) "failed");
    simpl; intuition congruence.
Qed.

(** *** Customer name *)

(** The email is shown as it is: where the profile has the empty string
    as its email and no name, the empty string is shown.  The email the
    never-empty clause takes as present is therefore a non-empty one. *)
Lemma getCustomerName_empty_email :
  profiles emptyEmailPayment
  = Some {| email := ""; first_name := None; last_name := None |}
  /\ getCustomerName emptyEmailPayment = "".
Proof. split; reflexivity. Qed.



(** *** The fetch on mount *)

Lemma fetch_success (data : option (list Payment)) :
  state (mount (Settled data None))
  = {| searchTerm := ""; payments := match data with Some d => d | None => [] end;
       isLoading := false; error := None |}
  /\ console (mount (Settled data None)) = [].
Proof. split; reflexivity. Qed.

(** C8: whatever way the fetch raises an error, by a rejected query or by
    a settled one that carries an error, the component ends with the message
    of that error as its error text, with the loading flag cleared and with
    an empty payments list. *)
Theorem fetch_failure (q : QueryOutcome) (err : ErrorObject) :
  raised q = Some err ->
  error (state (mount q)) = Some (message err)
  /\ isLoading (state (mount q)) = false
  /\ payments (state (mount q)) = [].
Proof.
  destruct q as [data [e|] | e]; simpl; intros H;
    try discriminate; injection H as ->; repeat split.
Qed.

Lemma fetch_failure_witness :
  error (state (mount (Rejected {| message := "Failed to fetch" |})))
    = Some "Failed to fetch"
  /\ isLoading (state (mount (Rejected {| message := "Failed to fetch" |})))
     = false
  /\ payments (state (mount (Rejected {| message := "Failed to fetch" |})))
     = [].
Proof.
  apply (fetch_failure (Rejected {| message := "Failed to fetch" |})
                       {| message := "Failed to fetch" |}).
  reflexivity.
Defined.

(** *** Search term and summary cards *)

(** C10: for one payments list and any two search terms the seven
    aggregates are the same, and so is the text of every summary card: they
    are computed from the whole list; the search term decides the table rows
    only, which do change with it. *)
Theorem aggregates_ignore_search_term (s : State) (term1 term2 : string) :
  aggregates (setSearchTerm term1 s) = aggregates (setSearchTerm term2 s)
  /\ (let v1 := render (setSearchTerm term1 s) in
      let v2 := render (setSearchTerm term2 s) in
      cardTotalRevenue v1 = cardTotalRevenue v2
      /\ cardCompleted v1 = cardCompleted v2
      /\ cardPendingRevenue v1 = cardPendingRevenue v2
      /\ cardPending v1 = cardPending v2
      /\ cardFailedRevenue v1 = cardFailedRevenue v2
      /\ cardFailed v1 = cardFailed v2
      /\ cardSuccessRate v1 = cardSuccessRate v2
      /\ rows v1 = filteredPayments term1 (payments s)
      /\ rows v2 = filteredPayments term2 (payments s))
  /\ (let loaded := {| searchTerm := ""; payments := scenarioPayments;
                       isLoading := false; error := None |} in
      rows (render (setSearchTerm "ada" loaded)) = scenarioPayments
      /\ rows (render (setSearchTerm "nobody" loaded)) = []).
Proof.
  split; [|split].
  - unfold aggregates, setSearchTerm. cbn [payments]. reflexivity.
  - unfold render, setSearchTerm. cbn [payments isLoading searchTerm].
    repeat split.
  - split; reflexivity.
Qed.

(** *** Revenue sums, counts and success rate *)

Lemma reduce_filter (keep : Payment -> bool) (payments : list Payment)
    (start : float) :
  fold_left
    (fun sum payment =>
       if keep payment then (sum + Number (amount payment))%float else sum)
    payments start
  = fold_left (fun sum payment => (sum + amount payment)%float)
              (filter keep payments) start.
Proof.
  revert start. induction payments as [|p ps IH]; intros start; simpl.
  - reflexivity.
  - destruct (keep p); simpl; apply IH.
Qed.

Lemma reduceRevenue_sum (keep : Payment -> bool) (payments : list Payment) :
  reduceRevenue keep payments = sumAmounts (filter keep payments).
Proof. apply reduce_filter. Qed.

Lemma isPaid_iff (p : Payment) :
  isPaid p = true
  <-> toLowerCase (status p) = "paid" \/ toLowerCase (status p) = "completed".
Proof.
  unfold isPaid. rewrite orb_true_iff, !String.eqb_eq. reflexivity.
Qed.

(** C1: the revenue of a bucket is the sum of the amounts of the payments
    whose lower-cased status is in it ("paid" or "completed"; "pending";
    "failed"), the counts are the sizes of the same three sublists, and the
    success rate is "0%" for the empty list and otherwise
    completedCount / total * 100 written with one decimal and a "%".  On
    the three payments "paid" 100, "Pending" 50, "failed" 25 this gives
    100.00, 50.00, 25.00, counts 1, 1, 1 and "33.3%". *)
Theorem aggregation_spec (payments : list Payment) :
  totalRevenue payments = sumAmounts (filter isPaid payments)
  /\ pendingRevenue payments = sumAmounts (filter isPending payments)
  /\ failedRevenue payments = sumAmounts (filter isFailed payments)
  /\ completedCount payments = List.length (filter isPaid payments)
  /\ pendingCount payments = List.length (filter isPending payments)
  /\ failedCount payments = List.length (filter isFailed payments)
  /\ (forall p, isPaid p = true
        <-> toLowerCase (status p) = "paid"
            \/ toLowerCase (status p) = "completed")
  /\ (forall p, isPending p = true <-> toLowerCase (status p) = "pending")
  /\ (forall p, isFailed p = true <-> toLowerCase (status p) = "failed")
  /\ successRate payments
     = match payments with
       | [] => "0%"
       | _ :: _ =>
           toFixed (NumberOfLength (completedCount payments)
                    / NumberOfLength (List.length payments) * 100)%float 1
           ++ "%"
       end
  /\ (map status scenarioPayments = ["paid"; "Pending"; "failed"]
      /\ map amount scenarioPayments = [100; 50; 25]%float
      /\ map currency scenarioPayments = ["USD"; "USD"; "USD"]
      /\ toFixed (totalRevenue scenarioPayments) 2 = "100.00"
      /\ toFixed (pendingRevenue scenarioPayments) 2 = "50.00"
      /\ toFixed (failedRevenue scenarioPayments) 2 = "25.00"
      /\ completedCount scenarioPayments = 1
      /\ pendingCount scenarioPayments = 1
      /\ failedCount scenarioPayments = 1
      /\ successRate scenarioPayments = "33.3%").
Proof.
  split; [apply reduceRevenue_sum|].
  split; [apply reduceRevenue_sum|].
  split; [apply reduceRevenue_sum|].
  do 3 (split; [reflexivity|]).
  split; [exact isPaid_iff|].
  split; [intros p; apply String.eqb_eq|].
  split; [intros p; apply String.eqb_eq|].
  split; [destruct payments; reflexivity|].
  repeat split; vm_compute; reflexivity.
Qed.

(** *** Digits and fixed-point notation *)

Lemma allDigits_uint (d : Decimal.uint) :
  allDigits (NilEmpty.string_of_uint d) = true.
Proof. induction d; simpl; auto. Qed.

Lemma digits_allDigits (n : Z) : allDigits (digits n) = true.
Proof.
  unfold digits, NilZero.string_of_uint.
  destruct (N.to_uint (Z.to_N n)) eqn:E; try reflexivity;
    rewrite <- E; apply allDigits_uint.
Qed.

Lemma digits_nonempty (n : Z) : (0 < String.length (digits n))%nat.
Proof.
  unfold digits, NilZero.string_of_uint.
  destruct (N.to_uint (Z.to_N n)); simpl; lia.
Qed.

Lemma length_append (a b : string) :
  String.length (a ++ b) = (String.length a + String.length b)%nat.
Proof. induction a as [|c a IH]; simpl; [reflexivity | now rewrite IH]. Qed.

Lemma length_zeros (k : nat) : String.length (zeros k) = k.
Proof. induction k as [|k IH]; simpl; [reflexivity | now rewrite IH]. Qed.

Lemma allDigits_append (a b : string) :
  allDigits (a ++ b) = allDigits a && allDigits b.
Proof.
  induction a as [|c a IH]; simpl; [reflexivity|].
  rewrite IH. apply andb_assoc.
Qed.

Lemma allDigits_zeros (k : nat) : allDigits (zeros k) = true.
Proof. induction k as [|k IH]; simpl; [reflexivity | exact IH]. Qed.

Lemma allDigits_substring (s : string) (a b : nat) :
  allDigits s = true -> allDigits (substring a b s) = true.
Proof.
  revert a b. induction s as [|c s IH]; intros a b H.
  - destruct a, b; reflexivity.
  - simpl in H. apply andb_true_iff in H. destruct H as [Hc Hs].
    destruct a as [|a]; simpl.
    + destruct b as [|b]; [reflexivity|]. simpl.
      rewrite Hc. simpl. apply IH. exact Hs.
    + apply IH. exact Hs.
Qed.

Lemma length_substring (s : string) (a b : nat) :
  (a + b <= String.length s)%nat -> String.length (substring a b s) = b.
Proof.
  revert a b. induction s as [|c s IH]; intros a b H; simpl in H.
  - assert (a = 0%nat) by lia. assert (b = 0%nat) by lia. subst. reflexivity.
  - destruct a as [|a]; simpl.
    + destruct b as [|b]; [reflexivity|]. simpl. f_equal. apply IH. lia.
    + apply IH. lia.
Qed.

(** With at least one fraction digit the fixed notation is a non-empty
    run of digits, a point, and exactly [f] digits. *)
Lemma fixedNotation_shape (n : Z) (f : nat) :
  (0 < f)%nat ->
  exists whole frac : string,
    fixedNotation n f = whole ++ "." ++ frac
    /\ whole <> "" /\ allDigits whole = true
    /\ String.length frac = f /\ allDigits frac = true.
Proof.
  intros Hf. unfold fixedNotation. destruct f as [|f']; [lia|].
  set (f := S f') in *.
  set (m' := if (String.length (digits n) <=? f)%nat
             then zeros (f + 1 - String.length (digits n)) ++ digits n
             else digits n).
  assert (D : allDigits m' = true).
  { unfold m'. destruct (_ <=? _)%nat.
    - rewrite allDigits_append, allDigits_zeros, digits_allDigits. reflexivity.
    - apply digits_allDigits. }
  assert (L : (f + 1 <= String.length m')%nat).
  { unfold m'. destruct (Nat.leb_spec (String.length (digits n)) f).
    - rewrite length_append, length_zeros. lia.
    - lia. }
  exists (substring 0 (String.length m' - f) m'),
         (substring (String.length m' - f) f m').
  split; [reflexivity|]. split; [|split; [|split]].
  - intros E.
    assert (String.length (substring 0 (String.length m' - f) m')
            = (String.length m' - f)%nat) as E'
      by (apply length_substring; lia).
    rewrite E in E'. simpl in E'. lia.
  - apply allDigits_substring, D.
  - apply length_substring. lia.
  - apply allDigits_substring, D.
Qed.

Lemma toFixed_fixedRange (x : float) (f : nat) :
  fixedRange x = true -> exists n, toFixed x f = fixedNotation n f.
Proof.
  unfold fixedRange, toFixed.
  destruct (Prim2SF x) as [s|s| |[|] m e]; try discriminate.
  - intros _. exists 0%Z. reflexivity.
  - intros H. apply negb_true_iff in H. rewrite H.
    exists (nearestScaled m e f). reflexivity.
Qed.

(** *** The range of fixed notation, in terms of the float order *)

Lemma digits2_pos_bound (m : positive) :
  (Zpos m < 2 ^ Zpos (digits2_pos m))%Z.
Proof.
  induction m as [p IH|p IH|]; simpl digits2_pos;
    rewrite ?Pos2Z.inj_succ, ?Z.pow_succ_r by lia; try lia.
Qed.

Lemma fixedRange_of_order (x : float) :
  (0 <=? x)%float = true -> (x <? 1e21)%float = true -> fixedRange x = true.
Proof.
  rewrite FloatAxioms.leb_spec, FloatAxioms.ltb_spec.
  pose proof (Prim2SF_valid x) as V.
  change (Prim2SF 0) with (S754_zero false).
  change (Prim2SF 1e21) with (S754_finite false 7629394531250000 17).
  unfold fixedRange.
  destruct (Prim2SF x) as [s|s| |s m e]; simpl; try discriminate.
  - reflexivity.
  - destruct s; discriminate.
  - destruct s; [discriminate|]. intros _ H.
    apply negb_true_iff. unfold atLeast1e21.
    simpl in V. unfold bounded, canonical_mantissa, fexp in V.
    apply andb_true_iff in V. destruct V as [V _].
    apply Z.eqb_eq in V.
    assert (B : (Zpos m < 2 ^ 53)%Z).
    { pose proof (digits2_pos_bound m) as B.
      assert (Zpos (digits2_pos m) + e - 53 <= e)%Z.
      { rewrite <- V at 2. apply (Z.le_max_l _ emin). }
      eapply Z.lt_le_trans; [exact B|].
      apply Z.pow_le_mono_r; lia. }
    unfold SFltb, SFcompare in H.
    destruct (Z.compare_spec e 17) as [->|Hlt|Hgt]; try discriminate.
    + rewrite Pos.compare_cont_spec in H. simpl in H.
      destruct (Pos.compare_spec m 7629394531250000) as [|Hm|];
        try discriminate.
      simpl. apply Z.leb_gt. apply Pos2Z.pos_lt_pos in Hm. lia.
    + destruct (Z.leb_spec 0 e) as [He|He].
      * apply Z.leb_gt.
        assert (2 ^ e <= 2 ^ 16)%Z by (apply Z.pow_le_mono_r; lia).
        assert (0 < 2 ^ e)%Z by (apply Z.pow_pos_nonneg; lia).
        change (10 ^ 21)%Z with 1000000000000000000000%Z.
        change (2 ^ 53)%Z with 9007199254740992%Z in B.
        change (2 ^ 16)%Z with 65536%Z in *. nia.
      * apply Z.leb_gt.
        assert (1 <= 2 ^ (- e))%Z.
        { change 1%Z with (2 ^ 0)%Z. apply Z.pow_le_mono_r; lia. }
        change (10 ^ 21)%Z with 1000000000000000000000%Z.
        change (2 ^ 53)%Z with 9007199254740992%Z in B. nia.
Qed.

(** *** Currency *)

(** C6, as stated, fails: the non-negative amount 10^21 in dollars is
    written in exponent notation, with no decimal places. *)
Lemma formatCurrency_1e21 :
  (0 <=? 1e21)%float = true
  /\ formatCurrency (fun _ => "") 1e21 "USD" = "$1e+21"
  /\ ~ dollarsAndCents (formatCurrency (fun _ => "") 1e21 "USD").
Proof.
  split; [reflexivity|]. split; [vm_compute; reflexivity|].
  replace (formatCurrency (fun _ => "") 1e21 "USD") with "$1e+21"
    by (vm_compute; reflexivity).
  intros (whole & cents & E & Hne & Hd & _ & _).
  destruct whole as [|c1 whole]; [congruence|].
  simpl in E. injection E as E1 E2. subst c1.
  destruct whole as [|c2 whole]; simpl in E2; [discriminate|].
  injection E2 as E2 _. subst c2. simpl in Hd. discriminate.
Qed.

(** C6, amended: with the currency code "NGN", and with no other, the result
    is the Naira sign followed by the locale rendering of the amount;
    otherwise it is a dollar sign followed by [toFixed(2)] of the amount,
    which for every non-negative amount below 10^21 is a run of digits, a
    point and exactly two digits; formatCurrency(1234.5, "USD") is
    "$1234.50". *)
Theorem formatCurrency_spec (toLocaleString : float -> string)
    (amount : float) (currency : string) :
  (currency = "NGN" ->
   formatCurrency toLocaleString amount currency
   = "₦" ++ toLocaleString amount)
  /\ (currency <> "NGN" ->
      formatCurrency toLocaleString amount currency = "$" ++ toFixed amount 2)
  /\ (prefix "₦" (formatCurrency toLocaleString amount currency) = true
      <-> currency = "NGN")
  /\ (currency <> "NGN" ->
      (0 <=? amount)%float = true -> (amount <? 1e21)%float = true ->
      dollarsAndCents (formatCurrency toLocaleString amount currency))
  /\ formatCurrency toLocaleString 1234.5 "USD" = "$1234.50".
Proof.
  unfold formatCurrency.
  destruct (String.eqb_spec currency "NGN") as [->|N].
  - split; [reflexivity|]. split; [congruence|]. split.
    + split; [reflexivity|]. intros _. simpl.
      destruct (toLocaleString amount); reflexivity.
    + split; [congruence | vm_compute; reflexivity].
  - split; [congruence|]. split; [reflexivity|]. split.
    + split; [discriminate | contradiction].
    + split; [|vm_compute; reflexivity].
      intros _ H0 H1.
      destruct (toFixed_fixedRange amount 2 (fixedRange_of_order amount H0 H1))
        as [n ->].
      destruct (fixedNotation_shape n 2 ltac:(lia))
        as (whole & cents & E & P).
      exists whole, cents. rewrite E. split; [reflexivity | exact P].
Qed.

Lemma formatCurrency_spec_witness :
  dollarsAndCents (formatCurrency (fun _ => "") 1234.5 "USD")
  /\ formatCurrency (fun _ => "1,234.5") 1234.5 "NGN" = "₦1,234.5".
Proof.
  split.
  - apply (proj1 (proj2 (proj2 (proj2
             (formatCurrency_spec (fun _ => "") 1234.5 "USD")))));
      [discriminate | reflexivity | reflexivity].
  - apply (proj1 (formatCurrency_spec (fun _ => "1,234.5") 1234.5 "NGN")).
    reflexivity.
Defined.

(* ================================================================== *)
(** ** Properties of the loading spinner                               *)
(* ================================================================== *)

Example spinner_runs :
  LS.state (LS.advance 1100 (LS.mount 1000))
  = {| LS.timeoutReached := true; LS.loadingTime := 1 |}
  /\ LS.state (LS.advance 999 (LS.mount 1000))
     = {| LS.timeoutReached := false; LS.loadingTime := 0 |}
  /\ LS.console (LS.advance 3000 (LS.mount 1000))
     = ["Loading timeout reached"].
Proof. repeat split; vm_compute; reflexivity. Qed.

(** A new [timeout] prop restarts both timers and keeps the counter. *)
Example spinner_rerender :
  LS.state (LS.advance 600 (LS.rerender 2000 (LS.advance 1600 (LS.mount 1000))))
  = {| LS.timeoutReached := true; LS.loadingTime := 1 |}
  /\ LS.state (LS.advance 600 (LS.advance 1600 (LS.mount 1000)))
     = {| LS.timeoutReached := true; LS.loadingTime := 2 |}.
Proof. split; vm_compute; reflexivity. Qed.

Lemma world_ext (w w' : LS.World) :
  LS.now w = LS.now w' -> LS.timers w = LS.timers w' ->
  LS.nextHandle w = LS.nextHandle w' -> LS.timeout w = LS.timeout w' ->
  LS.state w = LS.state w' -> LS.console w = LS.console w' ->
  LS.cleanup w = LS.cleanup w' -> w = w'.
Proof.
  destruct w, w'. simpl. intros. subst. reflexivity.
Qed.

Ltac spin Eab Eba :=
  repeat (progress
    (unfold LS.fire, LS.isActive, LS.withTimers, LS.run;
     cbn [fold_left existsb LS.handle LS.timers LS.every map filter app
          LS.callback LS.now LS.nextHandle LS.timeout LS.state LS.console
          LS.cleanup LS.due LS.timeoutReached LS.loadingTime orb negb];
     rewrite ?Nat.eqb_refl, ?Eba, ?Eab)).

Lemma tick_runningAt (start : Z) (base : LS.State) (log : list string)
    (h : nat) (T : Z) (d : nat) :
  LS.tick (LS.runningAt start base log h T d)
  = LS.runningAt start base log h T (S d).
Proof.
  unfold LS.tick, LS.runningAt, LS.firstTurn. rewrite Nat2Z.inj_succ.
  generalize (LS.timerDelay T). intros D.
  set (n := Z.of_nat d). assert (Hn : (0 <= n)%Z) by lia. clearbody n.
  rewrite <- Z.add_1_r.
  assert (Eba : (S h =? h)%nat = false) by (apply Nat.eqb_neq; lia).
  assert (Eab : (h =? S h)%nat = false) by (apply Nat.eqb_neq; lia).
  cbn [LS.now LS.timers LS.nextHandle LS.timeout LS.state LS.console
       LS.cleanup].
  destruct (Z.ltb_spec n (Z.max 1 D)) as [H1|H1];
  destruct (Z.leb_spec (Z.max 1 D) n) as [H2|H2]; try lia;
  destruct (Z.ltb_spec (n + 1) (Z.max 1 D)) as [H3|H3];
  destruct (Z.leb_spec (Z.max 1 D) (n + 1)) as [H4|H4]; try lia;
  cbn [app filter LS.due];
  (destruct (Z.leb_spec (start + D) (start + n + 1)) as [H5|H5]; try lia);
  destruct (Z.leb_spec (start + 1000 * (n / 1000 + 1)) (start + n + 1))
    as [H6|H6];
  spin Eab Eba.
  all: try (replace ((n + 1) / 1000)%Z with (n / 1000 + 1)%Z
              by (Z.to_euclidean_division_equations; lia)).
  all: try (replace ((n + 1) / 1000)%Z with (n / 1000)%Z
              by (Z.to_euclidean_division_equations; lia)).
  all: apply world_ext;
    cbn [LS.now LS.timers LS.nextHandle LS.timeout LS.state LS.console
         LS.cleanup];
    rewrite ?orb_true_r, ?orb_false_r, ?app_nil_r;
    try reflexivity; try lia; repeat (f_equal; try lia).
Qed.

Lemma advance_runningAt (start : Z) (base : LS.State) (log : list string)
    (h : nat) (T : Z) (d : nat) :
  LS.advance d (LS.runningAt start base log h T 0)
  = LS.runningAt start base log h T d.
Proof.
  induction d as [|d IH]; simpl; [reflexivity|].
  rewrite IH. apply tick_runningAt.
Qed.

Lemma firstTurn_pos (T : Z) : (0 <? LS.firstTurn T)%Z = true.
Proof. apply Z.ltb_lt. unfold LS.firstTurn. lia. Qed.

Lemma mount_spinnerAt (T : Z) : LS.mount T = LS.spinnerAt T 0.
Proof.
  unfold LS.spinnerAt, LS.runningAt. cbv zeta.
  change (Z.of_nat 0) with 0%Z.
  rewrite (firstTurn_pos T).
  destruct (Z.leb_spec (LS.firstTurn T) 0) as [H|_];
    [unfold LS.firstTurn in H; lia|].
  reflexivity.
Qed.

Lemma advance_mount (T : Z) (t : nat) :
  LS.advance t (LS.mount T) = LS.spinnerAt T t.
Proof.
  rewrite mount_spinnerAt. apply advance_runningAt.
Qed.

Lemma unmount_runningAt (start : Z) (base : LS.State) (log : list string)
    (h : nat) (T : Z) (d : nat) :
  LS.timers (LS.unmount (LS.runningAt start base log h T d)) = []
  /\ LS.state (LS.unmount (LS.runningAt start base log h T d))
     = LS.state (LS.runningAt start base log h T d)
  /\ LS.console (LS.unmount (LS.runningAt start base log h T d))
     = LS.console (LS.runningAt start base log h T d).
Proof.
  assert (Eba : (S h =? h)%nat = false) by (apply Nat.eqb_neq; lia).
  unfold LS.unmount, LS.runCleanup, LS.runningAt.
  cbn [LS.cleanup LS.clearInterval LS.clearTimeout LS.withCleanup
       LS.withTimers LS.timers LS.state LS.console].
  destruct (Z.of_nat d <? LS.firstTurn T)%Z;
    cbn [app filter LS.handle negb]; rewrite ?Nat.eqb_refl, ?Eba;
    cbn [app filter LS.handle negb]; rewrite ?Nat.eqb_refl;
    repeat split.
Qed.

Lemma tick_idle (w : LS.World) :
  LS.timers w = [] ->
  LS.timers (LS.tick w) = [] /\ LS.state (LS.tick w) = LS.state w
  /\ LS.console (LS.tick w) = LS.console w.
Proof. intros H. unfold LS.tick. simpl. rewrite H. repeat split. Qed.

Lemma advance_idle (w : LS.World) (ms : nat) :
  LS.timers w = [] ->
  LS.timers (LS.advance ms w) = []
  /\ LS.state (LS.advance ms w) = LS.state w
  /\ LS.console (LS.advance ms w) = LS.console w.
Proof.
  intros H. induction ms as [|ms IH]; simpl; [repeat split; exact H|].
  destruct IH as (I1 & I2 & I3).
  destruct (tick_idle _ I1) as (J1 & J2 & J3).
  rewrite J2, J3. repeat split; assumption.
Qed.

(** In the range of a positive signed 32-bit integer the timer gets the
    delay it was given. *)
Lemma firstTurn_in_range (T : Z) :
  (1 <= T < 2 ^ 31)%Z -> LS.firstTurn T = T.
Proof.
  intros H. unfold LS.firstTurn, LS.timerDelay, LS.toInt32.
  rewrite Z.mod_small by lia. lia.
Qed.

(** C9, as stated, fails: with the timeout 2^31 milliseconds (some 25
    days), which the platform reads as a negative 32-bit delay and takes
    as 0, timeoutReached is true and its message is printed 50 milliseconds
    after the mount. *)
Lemma spinner_timeout_wraps :
  (50 < 2147483648)%Z
  /\ LS.timeoutReached (LS.state (LS.advance 50 (LS.mount 2147483648)))
     = true
  /\ LS.console (LS.advance 50 (LS.mount 2147483648))
     = ["Loading timeout reached"].
Proof. repeat split; vm_compute; reflexivity. Qed.

(** C9, amended: a spinner mounted with timeout [T] starts with elapsed 0
    and timeoutReached false; [t] milliseconds later elapsed is the number
    of full seconds in [t]; timeoutReached goes from false to true exactly
    once, its callback running once, when the delay the platform gives the
    timer has passed: that is [T] milliseconds when [T] is between 1 and
    2^31 - 1, and the first timer turn for the other values of [T], which the
    platform reads as a signed 32-bit number and raises to 0 when negative.
    After the unmount, at any time, no timer is left, so neither the state
    nor the console changes however long time goes on.  With [T] = 1000 and
    [t] = 1100, timeoutReached is true and elapsed is at least 1. *)
Theorem spinner_timeline (T : Z) (t : nat) :
  LS.state (LS.mount T) = {| LS.timeoutReached := false; LS.loadingTime := 0 |}
  /\ LS.loadingTime (LS.state (LS.advance t (LS.mount T)))
     = (Z.of_nat t / 1000)%Z
  /\ LS.timeoutReached (LS.state (LS.advance t (LS.mount T)))
     = (LS.firstTurn T <=? Z.of_nat t)%Z
  /\ LS.console (LS.advance t (LS.mount T))
     = (if (LS.firstTurn T <=? Z.of_nat t)%Z
        then ["Loading timeout reached"] else [])
  /\ ((1 <= T < 2 ^ 31)%Z ->
      LS.timeoutReached (LS.state (LS.advance t (LS.mount T)))
      = (T <=? Z.of_nat t)%Z
      /\ LS.console (LS.advance t (LS.mount T))
         = (if (T <=? Z.of_nat t)%Z then ["Loading timeout reached"]
            else []))
  /\ (forall later : nat,
        LS.timers (LS.advance later (LS.unmount (LS.advance t (LS.mount T))))
        = []
        /\ LS.state (LS.advance later (LS.unmount (LS.advance t (LS.mount T))))
           = LS.state (LS.advance t (LS.mount T))
        /\ LS.console
             (LS.advance later (LS.unmount (LS.advance t (LS.mount T))))
           = LS.console (LS.advance t (LS.mount T)))
  /\ (LS.timeoutReached (LS.state (LS.advance 1100 (LS.mount 1000))) = true
      /\ (1 <= LS.loadingTime (LS.state (LS.advance 1100 (LS.mount 1000))))%Z
      /\ forall later : nat,
           LS.state
             (LS.advance later (LS.unmount (LS.advance 1100 (LS.mount 1000))))
           = LS.state (LS.advance 1100 (LS.mount 1000))).
Proof.
  split; [reflexivity|].
  rewrite (advance_mount T t).
  split; [reflexivity|]. split; [reflexivity|]. split; [reflexivity|].
  split; [|split].
  - intros R. pose proof (firstTurn_in_range T R) as E. split.
    + transitivity (LS.firstTurn T <=? Z.of_nat t)%Z;
        [reflexivity | rewrite E; reflexivity].
    + transitivity (if (LS.firstTurn T <=? Z.of_nat t)%Z
                    then ["Loading timeout reached"] else []);
        [reflexivity | rewrite E; reflexivity].
  - intros later. unfold LS.spinnerAt.
    destruct (unmount_runningAt 0
                {| LS.timeoutReached := false; LS.loadingTime := 0 |}
                [] 1 T t) as (U1 & U2 & U3).
    destruct (advance_idle _ later U1) as (A1 & A2 & A3).
    rewrite A2, A3, U2, U3. repeat split. exact A1.
  - rewrite (advance_mount 1000 1100).
    split; [vm_compute; reflexivity|].
    split; [vm_compute; discriminate|].
    intros later. unfold LS.spinnerAt.
    destruct (unmount_runningAt 0
                {| LS.timeoutReached := false; LS.loadingTime := 0 |}
                [] 1 1000 1100) as (U1 & U2 & _).
    destruct (advance_idle _ later U1) as (_ & A2 & _).
    rewrite A2, U2. reflexivity.
Qed.

Lemma spinner_timeline_witness :
  LS.loadingTime (LS.state (LS.advance 2500 (LS.mount 1000))) = 2%Z
  /\ LS.timeoutReached (LS.state (LS.advance 2500 (LS.mount 1000))) = true
  /\ LS.console (LS.advance 2500 (LS.mount 1000))
     = ["Loading timeout reached"].
Proof.
  destruct (spinner_timeline 1000 2500) as (_ & H1 & _ & _ & H2 & _).
  destruct (H2 ltac:(lia)) as (H3 & H4).
  rewrite H1, H3, H4. repeat split.
Defined.

(* ================================================================== *)
(** ** Further properties of the payments page                         *)
(* ================================================================== *)

(** *** The fetch, from any state *)

(** X1: for every outcome of the query that settles (with or without an
    error) or rejects with an error object, a value that has a message, and
    whatever the state was, the async function completes normally (its
    promise is not rejected), leaves the loading flag cleared and does not
    touch the search term.  A rejection with null or undefined, on which
    reading the message throws inside the catch block, is not among the
    outcomes quantified over. *)
Theorem fetchPayments_always_settles (q : QueryOutcome) (w : World) :
  fst (fetchPayments q w) = Normal tt
  /\ isLoading (state (snd (fetchPayments q w))) = false
  /\ searchTerm (state (snd (fetchPayments q w))) = searchTerm (state w).
Proof. destruct q as [data [e|] | e]; repeat split. Qed.

(** A fetch that succeeds replaces the list by the fetched one (by the
    empty list when [data] is null), clears an error left by an earlier run
    and writes nothing to the console. *)
Lemma fetchPayments_success_replaces (data : option (list Payment))
    (w : World) :
  payments (state (snd (fetchPayments (Settled data None) w)))
  = match data with Some d => d | None => [] end
  /\ error (state (snd (fetchPayments (Settled data None) w))) = None
  /\ console (snd (fetchPayments (Settled data None) w)) = console w.
Proof. repeat split. Qed.

(** X2: a fetch that fails does not clear the list: it keeps the payments
    the state had, replaces the error text by the new message and adds one
    line to the console. *)
Theorem fetchPayments_failure_keeps_list (q : QueryOutcome)
    (err : ErrorObject) (w : World) :
  raised q = Some err ->
  payments (state (snd (fetchPayments q w))) = payments (state w)
  /\ error (state (snd (fetchPayments q w))) = Some (message err)
  /\ console (snd (fetchPayments q w))
     = List.app (console w) ["Error fetching payments: " ++ message err].
Proof.
  destruct q as [data [e|] | e]; simpl; intros H;
    try discriminate; injection H as ->; repeat split.
Qed.

Lemma fetchPayments_failure_keeps_list_witness :
  payments (state (snd (fetchPayments
                          (Settled None (Some {| message := "timeout" |}))
                          (mount (Settled (Some scenarioPayments) None)))))
  = scenarioPayments.
Proof.
  destruct (fetchPayments_failure_keeps_list
              (Settled None (Some {| message := "timeout" |}))
              {| message := "timeout" |}
              (mount (Settled (Some scenarioPayments) None)) eq_refl)
    as (H & _ & _).
  rewrite H. reflexivity.
Defined.

(** *** What the page shows after the mount *)



(** *** The search filter, for any term *)

Lemma lower_char_idempotent (c : ascii) :
  lower_char (lower_char c) = lower_char c.
Proof. destruct c as [[] [] [] [] [] [] [] []]; reflexivity. Qed.

Lemma toLowerCase_idempotent (s : string) :
  toLowerCase (toLowerCase s) = toLowerCase s.
Proof.
  induction s as [|c s IH]; simpl; [reflexivity|].
  rewrite lower_char_idempotent, IH. reflexivity.
Qed.

Lemma toLowerCase_append (a b : string) :
  toLowerCase (a ++ b) = toLowerCase a ++ toLowerCase b.
Proof. induction a as [|c a IH]; simpl; [reflexivity | now rewrite IH]. Qed.

Lemma append_assoc (a b c : string) : (a ++ b) ++ c = a ++ (b ++ c).
Proof. induction a as [|x a IH]; simpl; [reflexivity | now rewrite IH]. Qed.

(** A string that contains a term contains every part of the term. *)
Lemma includes_narrow (s pre term post : string) :
  includes s (pre ++ term ++ post) = true -> includes s term = true.
Proof.
  rewrite !includes_iff. intros (a & b & E).
  exists (a ++ pre), (post ++ b). rewrite E, !append_assoc. reflexivity.
Qed.

Lemma chainIncludes_narrow (field : option string) (pre term post : string) :
  truthy_chain (chainIncludes field (pre ++ term ++ post)) = true ->
  truthy_chain (chainIncludes field term) = true.
Proof.
  destruct field as [s|]; simpl; [|discriminate].
  rewrite !toLowerCase_append. apply includes_narrow.
Qed.

Lemma emailIncludes_narrow (p : Payment) (pre term post : string) :
  emailIncludes p (pre ++ term ++ post) = true ->
  emailIncludes p term = true.
Proof.
  unfold emailIncludes. destruct (profiles p) as [pr|]; [|discriminate].
  destruct (truthy (email pr)); [|discriminate].
  rewrite !toLowerCase_append. apply includes_narrow.
Qed.

Lemma matchesSearch_narrow (pre term post : string) (p : Payment) :
  matchesSearch (pre ++ term ++ post) p = true -> matchesSearch term p = true.
Proof.
  unfold matchesSearch. rewrite !orb_true_iff.
  intros [[H | H] | H].
  - left; left. eapply chainIncludes_narrow, H.
  - left; right. eapply chainIncludes_narrow, H.
  - right. eapply emailIncludes_narrow, H.
Qed.

Lemma filter_subsequence {A} (f : A -> bool) (l : list A) :
  subsequence (filter f l) l.
Proof.
  induction l as [|a l IH]; simpl; [constructor|].
  destruct (f a); constructor; exact IH.
Qed.

Lemma filter_filter_implied {A} (f g : A -> bool) (l : list A) :
  (forall x, g x = true -> f x = true) ->
  filter g (filter f l) = filter g l.
Proof.
  intros H. induction l as [|a l IH]; simpl; [reflexivity|].
  destruct (f a) eqn:Fa; simpl.
  - rewrite IH. reflexivity.
  - destruct (g a) eqn:Ga; [|exact IH].
    apply H in Ga. congruence.
Qed.

(** X4: the rows shown are payments of the list, in the order of the list,
    and they are exactly those the filter callback accepts; filtering the
    shown rows again with the same term changes nothing. *)
Theorem filteredPayments_subsequence (term : string)
    (payments : list Payment) :
  subsequence (filteredPayments term payments) payments
  /\ (forall p, In p (filteredPayments term payments)
                <-> In p payments /\ matchesSearch term p = true)
  /\ filteredPayments term (filteredPayments term payments)
     = filteredPayments term payments.
Proof.
  unfold filteredPayments. split; [apply filter_subsequence|].
  split; [intros p; apply filter_In|].
  apply filter_filter_implied. auto.
Qed.

(** X5: on ASCII text (search terms and searched fields without a character
    beyond U+007F) letter case in the search term does not matter: two terms
    with the same lower-case form, such as a term and its lower-case form,
    select the same rows. *)
Theorem filteredPayments_term_case (term1 term2 : string)
    (payments : list Payment) :
  isAscii term1 = true -> isAscii term2 = true ->
  forallb asciiFields payments = true ->
  toLowerCase term1 = toLowerCase term2 ->
  filteredPayments term1 payments = filteredPayments term2 payments
  /\ filteredPayments (toLowerCase term1) payments
     = filteredPayments term1 payments.
Proof.
  intros _ _ _ H. unfold filteredPayments. split; apply filter_ext; intros p;
    unfold matchesSearch, chainIncludes, emailIncludes;
    rewrite ?toLowerCase_idempotent, ?H; reflexivity.
Qed.

Lemma filteredPayments_term_case_witness :
  filteredPayments "Ada@Example" scenarioPayments
  = filteredPayments "ADA@EXAMPLE" scenarioPayments.
Proof.
  apply (filteredPayments_term_case "Ada@Example" "ADA@EXAMPLE"
           scenarioPayments); reflexivity.
Defined.

(** X6: on ASCII text (search terms and searched fields without a character
    beyond U+007F) typing more around a term only narrows the table: the
    rows for the longer term are among the rows for the term, in the same
    order, and searching the longer term within the rows of the shorter one
    gives the same rows as searching it in the whole list. *)
Theorem filteredPayments_narrows (pre term post : string)
    (payments : list Payment) :
  isAscii pre = true -> isAscii term = true -> isAscii post = true ->
  forallb asciiFields payments = true ->
  filteredPayments (pre ++ term ++ post) (filteredPayments term payments)
  = filteredPayments (pre ++ term ++ post) payments
  /\ subsequence (filteredPayments (pre ++ term ++ post) payments)
                 (filteredPayments term payments).
Proof.
  intros _ _ _ _.
  assert (E : filteredPayments (pre ++ term ++ post)
                (filteredPayments term payments)
              = filteredPayments (pre ++ term ++ post) payments).
  { unfold filteredPayments. apply filter_filter_implied.
    intros p. apply matchesSearch_narrow. }
  split; [exact E|]. rewrite <- E. apply filter_subsequence.
Qed.

Lemma filteredPayments_narrows_witness :
  filteredPayments "ada@example" (filteredPayments "@" scenarioPayments)
  = filteredPayments "ada@example" scenarioPayments.
Proof.
  apply (proj1 (filteredPayments_narrows "ada" "@" "example"
                  scenarioPayments eq_refl eq_refl eq_refl eq_refl)).
Defined.

(** *** Badges and buckets *)

(** X7: a coloured badge never disagrees with the summary cards: a
    "default" badge is on a payment counted as completed, a "secondary" one
    on a payment counted as pending, a "destructive" one on a payment
    counted as failed, and a payment outside the three buckets has the
    "outline" badge.  The converse fails: a payment can be counted as
    completed and still carry the "outline" badge. *)
Theorem badge_agrees_with_bucket (p : Payment) :
  (getStatusVariant (status p) = "default" -> isPaid p = true)
  /\ (getStatusVariant (status p) = "secondary" -> isPending p = true)
  /\ (getStatusVariant (status p) = "destructive" -> isFailed p = true)
  /\ (recognized p = false -> getStatusVariant (status p) = "outline")
  /\ (exists q, isPaid q = true /\ getStatusVariant (status q) = "outline").
Proof.
  assert (L : forall v, getStatusVariant (status p) = v ->
            v <> "outline" ->
            (v = "default" /\ isPaid p = true)
            \/ (v = "secondary" /\ isPending p = true)
            \/ (v = "destructive" /\ isFailed p = true)).
  { unfold getStatusVariant, isPaid, isPending, isFailed.
    destruct (String.eqb_spec (status p) "paid") as [->|_];
      [intros v <- _; left; split; reflexivity|].
    destruct (String.eqb_spec (status p) "Completed") as [->|_];
      [intros v <- _; left; split; reflexivity|].
    destruct (String.eqb_spec (status p) "pending") as [->|_];
      [intros v <- _; right; left; split; reflexivity|].
    destruct (String.eqb_spec (status p) "Pending") as [->|_];
      [intros v <- _; right; left; split; reflexivity|].
    destruct (String.eqb_spec (status p) "failed") as [->|_];
      [intros v <- _; right; right; split; reflexivity|].
    destruct (String.eqb_spec (status p) "Failed") as [->|_];
      [intros v <- _; right; right; split; reflexivity|].
    intros v <- N. contradiction. }
  split; [|split; [|split; [|split]]].
  - intros H. destruct (L _ H) as [[_ R]|[[E _]|[E _]]];
      [discriminate | exact R | discriminate E | discriminate E].
  - intros H. destruct (L _ H) as [[E _]|[[_ R]|[E _]]];
      [discriminate | discriminate E | exact R | discriminate E].
  - intros H. destruct (L _ H) as [[E _]|[[E _]|[_ R]]];
      [discriminate | discriminate E | discriminate E | exact R].
  - intros R.
    destruct (string_dec (getStatusVariant (status p)) "outline") as [E|N];
      [exact E|].
    unfold recognized in R. apply orb_false_iff in R. destruct R as [R R3].
    apply orb_false_iff in R. destruct R as [R1 R2].
    destruct (L _ eq_refl N) as [[_ R']|[[_ R']|[_ R']]]; congruence.
  - exists (samplePayment "completed" 100). split; reflexivity.
Qed.

(** *** Aggregates: order, unrecognized statuses, currency *)

Lemma filter_length_permutation {A} (f : A -> bool) (l l' : list A) :
  Permutation l l' ->
  List.length (filter f l) = List.length (filter f l').
Proof.
  induction 1 as [|x l l' _ IH|x y l|l l' l'' _ IH1 _ IH2]; simpl.
  - reflexivity.
  - destruct (f x); simpl; congruence.
  - destruct (f x), (f y); reflexivity.
  - congruence.
Qed.

(** X8: the three counts and the success rate do not depend on the order of
    the payments.  The revenue sums do: they are binary64 sums taken from
    the left, and two orders of the same three paid payments give totals
    that differ. *)
Theorem counts_ignore_order (payments payments' : list Payment) :
  Permutation payments payments' ->
  completedCount payments = completedCount payments'
  /\ pendingCount payments = pendingCount payments'
  /\ failedCount payments = failedCount payments'
  /\ successRate payments = successRate payments'
  /\ (let big := samplePayment "paid" 1e16 in
      let one := samplePayment "paid" 1 in
      Permutation [big; one; one] [one; one; big]
      /\ toFixed (totalRevenue [big; one; one]) 2 = "10000000000000000.00"
      /\ toFixed (totalRevenue [one; one; big]) 2 = "10000000000000002.00").
Proof.
  intros P.
  assert (C : completedCount payments = completedCount payments')
    by apply (filter_length_permutation isPaid _ _ P).
  split; [exact C|].
  split; [apply (filter_length_permutation isPending _ _ P)|].
  split; [apply (filter_length_permutation isFailed _ _ P)|].
  split.
  - unfold successRate. rewrite C, (Permutation_length P). reflexivity.
  - split; [|split; vm_compute; reflexivity].
    apply (Permutation_cons_app [_; _] [] _ (Permutation_refl _)).
Qed.

Lemma counts_ignore_order_witness :
  successRate (rev scenarioPayments) = successRate scenarioPayments.
Proof.
  apply (counts_ignore_order (rev scenarioPayments) scenarioPayments).
  apply Permutation_sym, Permutation_rev.
Defined.

Lemma filter_skip {A} (f : A -> bool) (a b : list A) (x : A) :
  f x = false -> filter f (a ++ x :: b)%list = filter f (a ++ b)%list.
Proof. intros H. rewrite !filter_app. simpl. rewrite H. reflexivity. Qed.

(** X9: a payment whose status is in none of the three buckets, wherever
    it stands in the list, changes no revenue and no count; it only makes
    the list longer, which is what the success rate divides by. *)
Theorem unrecognized_payment_ignored (before after : list Payment)
    (p : Payment) :
  recognized p = false ->
  totalRevenue (before ++ p :: after)%list
    = totalRevenue (before ++ after)%list
  /\ pendingRevenue (before ++ p :: after)%list
     = pendingRevenue (before ++ after)%list
  /\ failedRevenue (before ++ p :: after)%list
     = failedRevenue (before ++ after)%list
  /\ completedCount (before ++ p :: after)%list
     = completedCount (before ++ after)%list
  /\ pendingCount (before ++ p :: after)%list
     = pendingCount (before ++ after)%list
  /\ failedCount (before ++ p :: after)%list
     = failedCount (before ++ after)%list
  /\ List.length (before ++ p :: after)%list
     = S (List.length (before ++ after)%list).
Proof.
  intros R. unfold recognized in R.
  apply orb_false_iff in R. destruct R as [R R3].
  apply orb_false_iff in R. destruct R as [R1 R2].
  unfold totalRevenue, pendingRevenue, failedRevenue,
    completedCount, pendingCount, failedCount.
  rewrite !reduceRevenue_sum,
    (filter_skip isPaid _ _ _ R1), (filter_skip isPending _ _ _ R2),
    (filter_skip isFailed _ _ _ R3).
  repeat split. rewrite !length_app. simpl. lia.
Qed.

Lemma unrecognized_payment_ignored_witness :
  totalRevenue (scenarioPayments ++ [samplePayment "refunded" 70])%list
  = totalRevenue scenarioPayments.
Proof.
  destruct (unrecognized_payment_ignored scenarioPayments []
              (samplePayment "refunded" 70) eq_refl) as (H & _).
  rewrite H, app_nil_r. reflexivity.
Defined.

Lemma filter_recoded (keep : Payment -> bool) (recode : Payment -> string)
    (ps : list Payment) :
  (forall p code, keep (withCurrency code p) = keep p) ->
  filter keep (map (fun p => withCurrency (recode p) p) ps)
  = map (fun p => withCurrency (recode p) p) (filter keep ps).
Proof.
  intros H. induction ps as [|p ps IH]; simpl; [reflexivity|].
  rewrite H. destruct (keep p); simpl; rewrite IH; reflexivity.
Qed.

Lemma sumAmounts_recoded (recode : Payment -> string) (ps : list Payment) :
  sumAmounts (map (fun p => withCurrency (recode p) p) ps) = sumAmounts ps.
Proof.
  unfold sumAmounts. generalize 0%float.
  induction ps as [|p ps IH]; intros start; simpl; [reflexivity|].
  apply IH.
Qed.

(** X10: the summary never reads the currency: whatever currency code each
    payment is given, the three revenue sums, the three counts and the
    success rate stay the same, so amounts in different currencies are
    added as they are. *)
Theorem aggregates_ignore_currency (recode : Payment -> string)
    (s : State) :
  aggregates {| searchTerm := searchTerm s;
                payments := map (fun p => withCurrency (recode p) p)
                                (payments s);
                isLoading := isLoading s; error := error s |}
  = aggregates s.
Proof.
  unfold aggregates, totalRevenue, pendingRevenue, failedRevenue,
    successRate, completedCount, pendingCount, failedCount.
  cbn [payments].
  rewrite !reduceRevenue_sum.
  rewrite !filter_recoded by reflexivity.
  rewrite !sumAmounts_recoded, !length_map. reflexivity.
Qed.

(** *** Customer name, cells and link of a row *)

Lemma string_strong_ind (P : string -> Prop) :
  (forall s, (forall s', String.length s' < String.length s -> P s') -> P s) ->
  forall s, P s.
Proof.
  intros H s.
  assert (G : forall n s', String.length s' < n -> P s').
  { induction n as [|n IH]; intros s' L; [lia|].
    apply H. intros s'' L'. apply IH. lia. }
  apply (G (S (String.length s))). lia.
Qed.

Lemma isWhiteSpace2_space (c : ascii) : isWhiteSpace2 c " " = false.
Proof. unfold isWhiteSpace2. simpl. apply andb_false_r. Qed.

Lemma isWhiteSpace3_space (c1 c2 : ascii) : isWhiteSpace3 c1 c2 " " = false.
Proof.
  unfold isWhiteSpace3. cbv zeta.
  change (nat_of_ascii " ") with 32. simpl.
  rewrite !andb_false_r. reflexivity.
Qed.

Ltac by_length IH := apply IH; simpl; lia.

Lemma isBlank_append (u v : string) :
  isBlank u = true -> isBlank (u ++ v) = isBlank v.
Proof.
  induction u as [u IH] using string_strong_ind.
  destruct u as [|c1 [|c2 [|c3 s3]]]; cbn [isBlank append]; intros B;
    try reflexivity.
  - destruct (isWhiteSpace c1); [reflexivity | discriminate].
  - destruct (isWhiteSpace c1).
    + apply (IH (String c2 "")); [simpl; lia | exact B].
    + destruct (isWhiteSpace2 c1 c2); [reflexivity | discriminate].
  - destruct (isWhiteSpace c1).
    + apply (IH (String c2 (String c3 s3))); [simpl; lia | exact B].
    + destruct (isWhiteSpace2 c1 c2).
      * apply (IH (String c3 s3)); [simpl; lia | exact B].
      * destruct (isWhiteSpace3 c1 c2 c3); [|discriminate].
        apply (IH s3); [simpl; lia | exact B].
Qed.

Lemma trimEnd_split (s : string) :
  exists blank, s = trimEnd s ++ blank /\ isBlank blank = true.
Proof.
  induction s as [|c s IH]; [exists ""; split; reflexivity|].
  cbn [trimEnd]. destruct (isBlank (String c s)) eqn:B.
  - exists (String c s). split; [reflexivity | exact B].
  - destruct IH as (blank & E & Bb). exists blank.
    split; [simpl; congruence | exact Bb].
Qed.

Lemma trimEnd_idempotent (s : string) : trimEnd (trimEnd s) = trimEnd s.
Proof.
  induction s as [|c s IH]; [reflexivity|].
  cbn [trimEnd]. destruct (isBlank (String c s)) eqn:B; [reflexivity|].
  cbn [trimEnd]. rewrite IH.
  destruct (isBlank (String c (trimEnd s))) eqn:B'; [|reflexivity].
  destruct (trimEnd_split s) as (blank & E & Bb).
  pose proof (isBlank_append (String c (trimEnd s)) blank B') as A.
  simpl append in A. rewrite <- E in A. congruence.
Qed.

Lemma trimStart_fixed (s : string) : headWhite s = false -> trimStart s = s.
Proof.
  destruct s as [|c1 [|c2 [|c3 s3]]]; cbn [headWhite trimStart];
    try reflexivity.
  - destruct (isWhiteSpace c1); [discriminate | reflexivity].
  - destruct (isWhiteSpace c1); [discriminate|].
    destruct (isWhiteSpace2 c1 c2); [discriminate | reflexivity].
  - destruct (isWhiteSpace c1); [discriminate|].
    destruct (isWhiteSpace2 c1 c2); [discriminate|].
    destruct (isWhiteSpace3 c1 c2 c3); [discriminate | reflexivity].
Qed.

Lemma trimStart_head (s : string) : headWhite (trimStart s) = false.
Proof.
  induction s as [s IH] using string_strong_ind.
  destruct s as [|c1 [|c2 [|c3 s3]]]; try reflexivity.
  - cbn [trimStart]. destruct (isWhiteSpace c1) eqn:W1; [reflexivity|].
    cbn [headWhite]. rewrite W1. reflexivity.
  - change (trimStart (String c1 (String c2 "")))
      with (if isWhiteSpace c1 then trimStart (String c2 "")
            else if isWhiteSpace2 c1 c2 then trimStart ""
                 else String c1 (String c2 "")).
    destruct (isWhiteSpace c1) eqn:W1; [by_length IH|].
    destruct (isWhiteSpace2 c1 c2) eqn:W2; [reflexivity|].
    cbn [headWhite]. rewrite W1, W2. reflexivity.
  - change (trimStart (String c1 (String c2 (String c3 s3))))
      with (if isWhiteSpace c1 then trimStart (String c2 (String c3 s3))
            else if isWhiteSpace2 c1 c2 then trimStart (String c3 s3)
                 else if isWhiteSpace3 c1 c2 c3 then trimStart s3
                      else String c1 (String c2 (String c3 s3))).
    destruct (isWhiteSpace c1) eqn:W1; [by_length IH|].
    destruct (isWhiteSpace2 c1 c2) eqn:W2; [by_length IH|].
    destruct (isWhiteSpace3 c1 c2 c3) eqn:W3; [by_length IH|].
    cbn [headWhite]. rewrite W1, W2, W3. reflexivity.
Qed.

Lemma headWhite_append (p v : string) :
  headWhite p = true -> headWhite (p ++ v) = true.
Proof.
  destruct p as [|c1 [|c2 [|c3 s3]]]; cbn [headWhite append];
    try discriminate.
  - destruct (isWhiteSpace c1); [reflexivity | discriminate].
  - destruct (isWhiteSpace c1); [reflexivity|].
    destruct (isWhiteSpace2 c1 c2); [reflexivity | discriminate].
  - intros H. exact H.
Qed.

Lemma trimEnd_head (u : string) :
  headWhite u = false -> headWhite (trimEnd u) = false.
Proof.
  intros H. destruct (headWhite (trimEnd u)) eqn:W; [|reflexivity].
  destruct (trimEnd_split u) as (blank & E & _).
  apply (headWhite_append _ blank) in W. rewrite <- E in W. congruence.
Qed.

Lemma trim_idempotent (s : string) : trim (trim s) = trim s.
Proof.
  unfold trim.
  rewrite (trimStart_fixed (trimEnd (trimStart s))).
  - apply trimEnd_idempotent.
  - apply trimEnd_head, trimStart_head.
Qed.

Lemma isBlank_append_space (x : string) : isBlank (x ++ " ") = isBlank x.
Proof.
  induction x as [x IH] using string_strong_ind.
  destruct x as [|c1 [|c2 [|c3 s3]]]; cbn [isBlank append];
    try reflexivity.
  - destruct (isWhiteSpace c1); [reflexivity|].
    rewrite isWhiteSpace2_space. reflexivity.
  - destruct (isWhiteSpace c1); [by_length (IH (String c2 ""))|].
    destruct (isWhiteSpace2 c1 c2); [reflexivity|].
    rewrite isWhiteSpace3_space. reflexivity.
  - destruct (isWhiteSpace c1);
      [by_length (IH (String c2 (String c3 s3)))|].
    destruct (isWhiteSpace2 c1 c2); [by_length (IH (String c3 s3))|].
    destruct (isWhiteSpace3 c1 c2 c3); [by_length (IH s3) | reflexivity].
Qed.

Lemma trimEnd_append_space (s : string) : trimEnd (s ++ " ") = trimEnd s.
Proof.
  induction s as [|c s IH]; [reflexivity|].
  cbn [trimEnd append].
  change (String c (s ++ " ")) with (String c s ++ " ").
  rewrite isBlank_append_space, IH. reflexivity.
Qed.

Lemma trimStart_blank (s : string) : isBlank s = true -> trimStart s = "".
Proof.
  induction s as [s IH] using string_strong_ind.
  destruct s as [|c1 [|c2 [|c3 s3]]]; cbn [isBlank trimStart]; intros B;
    try reflexivity.
  - destruct (isWhiteSpace c1); [reflexivity | discriminate].
  - destruct (isWhiteSpace c1);
      [apply (IH (String c2 "")); [simpl; lia | exact B]|].
    destruct (isWhiteSpace2 c1 c2); [reflexivity | discriminate].
  - destruct (isWhiteSpace c1);
      [apply (IH (String c2 (String c3 s3))); [simpl; lia | exact B]|].
    destruct (isWhiteSpace2 c1 c2);
      [apply (IH (String c3 s3)); [simpl; lia | exact B]|].
    destruct (isWhiteSpace3 c1 c2 c3); [|discriminate].
    apply (IH s3); [simpl; lia | exact B].
Qed.

Lemma trimStart_append_space (s : string) :
  isBlank s = false -> trimStart (s ++ " ") = trimStart s ++ " ".
Proof.
  induction s as [s IH] using string_strong_ind.
  destruct s as [|c1 [|c2 [|c3 s3]]]; cbn [isBlank trimStart append];
    intros B; try discriminate.
  - destruct (isWhiteSpace c1); [discriminate|].
    rewrite isWhiteSpace2_space. reflexivity.
  - destruct (isWhiteSpace c1);
      [apply (IH (String c2 "")); [simpl; lia | exact B]|].
    destruct (isWhiteSpace2 c1 c2); [discriminate|].
    rewrite isWhiteSpace3_space. reflexivity.
  - destruct (isWhiteSpace c1);
      [apply (IH (String c2 (String c3 s3))); [simpl; lia | exact B]|].
    destruct (isWhiteSpace2 c1 c2);
      [apply (IH (String c3 s3)); [simpl; lia | exact B]|].
    destruct (isWhiteSpace3 c1 c2 c3);
      [apply (IH s3); [simpl; lia | exact B] | reflexivity].
Qed.

Lemma trim_append_space (s : string) : trim (s ++ " ") = trim s.
Proof.
  unfold trim. destruct (isBlank s) eqn:B.
  - rewrite (trimStart_blank s B).
    rewrite (trimStart_blank (s ++ " "));
      [reflexivity | rewrite isBlank_append_space; exact B].
  - rewrite (trimStart_append_space s B). apply trimEnd_append_space.
Qed.

(** X11: when a first or a last name is given, the name shown never begins
    or ends with white space; with a first name only it is that name
    trimmed, with a last name only it is that name trimmed, without a
    dangling separator in either case. *)
Theorem getCustomerName_trimmed (payment : Payment) (pr : Profile) :
  profiles payment = Some pr ->
  let firstName := or_empty (first_name pr) in
  let lastName := or_empty (last_name pr) in
  (firstName <> "" \/ lastName <> "" ->
   trim (getCustomerName payment) = getCustomerName payment)
  /\ (firstName <> "" -> lastName = "" ->
      getCustomerName payment = trim firstName)
  /\ (firstName = "" -> lastName <> "" ->
      getCustomerName payment = trim lastName).
Proof.
  intros E. unfold getCustomerName. rewrite E. cbv zeta.
  set (firstName := or_empty (first_name pr)).
  set (lastName := or_empty (last_name pr)).
  split; [|split].
  - intros N.
    assert (T : truthy firstName || truthy lastName = true).
    { apply orb_true_iff. rewrite !truthy_true. exact N. }
    rewrite T. apply trim_idempotent.
  - intros N L. apply truthy_true in N. rewrite N, L. simpl.
    apply trim_append_space.
  - intros F N. apply truthy_true in N. rewrite N, F. reflexivity.
Qed.

Lemma getCustomerName_trimmed_witness :
  getCustomerName (samplePayment "paid" 100)
  = trim (getCustomerName (samplePayment "paid" 100)).
Proof.
  symmetry.
  apply (proj1 (getCustomerName_trimmed (samplePayment "paid" 100) _ eq_refl)).
  left. discriminate.
Defined.

Lemma substring_all (s : string) : substring 0 (String.length s) s = s.
Proof. induction s as [|c s IH]; simpl; [reflexivity | now rewrite IH]. Qed.

Lemma substring_after (a b : string) (n : nat) :
  substring (String.length a) n (a ++ b) = substring 0 n b.
Proof. induction a as [|c a IH]; simpl; [reflexivity | exact IH]. Qed.

Lemma reference_after_dashboard (ref : string) :
  substring 46
    (String.length ("https://dashboard.paystack.com/#/transactions/" ++ ref)
     - 46)
    ("https://dashboard.paystack.com/#/transactions/" ++ ref)
  = ref.
Proof.
  rewrite length_append.
  change (String.length "https://dashboard.paystack.com/#/transactions/")
    with 46%nat.
  replace (46 + String.length ref - 46)%nat with (String.length ref) by lia.
  rewrite (substring_after "https://dashboard.paystack.com/#/transactions/").
  apply substring_all.
Qed.

(** X12: a link is made for paystack payments only, its address is never
    empty, so the row that has a link always shows the link action, and
    what follows the 46 characters of the dashboard address is the payment
    reference, unchanged. *)
Theorem getPaymentProviderLink_carries_reference (payment : Payment)
    (url : string) :
  getPaymentProviderLink payment = Some url ->
  payment_provider payment = Some "paystack"
  /\ payment_reference payment
     = Some (substring 46 (String.length url - 46) url)
  /\ hasLinkAction payment = true.
Proof.
  unfold hasLinkAction, getPaymentProviderLink, provider_is.
  destruct (payment_provider payment) as [prov|]; [|discriminate].
  destruct (String.eqb_spec prov "paystack") as [->|]; [|discriminate].
  destruct (payment_reference payment) as [ref|]; [|discriminate].
  unfold truthy_opt. destruct (truthy ref); cbn [andb]; [|discriminate].
  intros H. assert (U : url = "https://dashboard.paystack.com/#/transactions/"
                              ++ ref) by congruence.
  clear H. subst url.
  split; [reflexivity|]. split; [|reflexivity].
  rewrite reference_after_dashboard. reflexivity.
Qed.

Lemma getPaymentProviderLink_carries_reference_witness :
  payment_reference (samplePayment "paid" 100) = Some "ref_1"
  /\ hasLinkAction (samplePayment "paid" 100) = true.
Proof.
  destruct (getPaymentProviderLink_carries_reference
              (samplePayment "paid" 100)
              "https://dashboard.paystack.com/#/transactions/ref_1" eq_refl)
    as (_ & H & A).
  split; [rewrite H; reflexivity | exact A].
Defined.

Lemma substring_split (s : string) (n : nat) :
  s = substring 0 n s ++ substring n (String.length s - n) s.
Proof.
  revert n. induction s as [|c s IH]; intros [|n]; simpl;
    try reflexivity.
  - rewrite substring_all. reflexivity.
  - f_equal. apply IH.
Qed.

Lemma length_substring_start (s : string) (n : nat) :
  String.length (substring 0 n s) = Nat.min n (String.length s).
Proof.
  revert n. induction s as [|c s IH]; intros [|n]; simpl; try reflexivity.
  rewrite IH. reflexivity.
Qed.

(** X13: the reference cell is never blank: it is the reference when there
    is a non-empty one and "-" otherwise.  The payment-id cell is the
    transaction id when there is a non-empty one; otherwise, for an id of
    ASCII characters (as the ids of the table, which are UUIDs, are), it is
    the beginning of the id, eight characters of it or the whole id when
    that is shorter. *)
Theorem row_cells (payment : Payment) :
  referenceCell payment <> ""
  /\ (forall reference, payment_reference payment = Some reference ->
        reference <> "" -> referenceCell payment = reference)
  /\ (payment_reference payment = None \/ payment_reference payment = Some ""
      -> referenceCell payment = "-")
  /\ (forall tx, transaction_id payment = Some tx -> tx <> "" ->
        paymentIdCell payment = tx)
  /\ (transaction_id payment = None \/ transaction_id payment = Some "" ->
      isAscii (id payment) = true ->
      prefix (paymentIdCell payment) (id payment) = true
      /\ String.length (paymentIdCell payment)
         = Nat.min 8 (String.length (id payment))).
Proof.
  unfold referenceCell, paymentIdCell, sliceFromStart.
  split; [|split; [|split; [|split]]].
  - destruct (payment_reference payment) as [[|c r]|]; discriminate.
  - intros reference -> N. simpl. apply truthy_true in N. rewrite N.
    reflexivity.
  - intros [-> | ->]; reflexivity.
  - intros tx -> N. simpl. apply truthy_true in N. rewrite N. reflexivity.
  - intros H _.
    assert (T : truthy_opt (transaction_id payment) = false)
      by (destruct H as [-> | ->]; reflexivity).
    rewrite T. split.
    + apply prefix_iff. eexists. apply substring_split.
    + apply length_substring_start.
Qed.

Lemma row_cells_witness :
  referenceCell (samplePayment "paid" 100) = "ref_1"
  /\ paymentIdCell orphanPayment = "6f1c2a9e"
  /\ String.length (paymentIdCell orphanPayment) = 8%nat.
Proof.
  split; [|split].
  - apply (proj1 (proj2 (row_cells (samplePayment "paid" 100))) "ref_1");
      [reflexivity | discriminate].
  - reflexivity.
  - apply (proj2 (proj2 (proj2 (proj2 (row_cells orphanPayment))))
             (or_introl eq_refl) eq_refl).
Defined.

(** *** Amounts: sign and rounding *)

Lemma toFixed_opp (x : float) (f : nat) :
  (0 <? x)%float = true -> toFixed (- x) f = "-" ++ toFixed x f.
Proof.
  rewrite FloatAxioms.ltb_spec. unfold toFixed. rewrite opp_spec.
  change (Prim2SF 0) with (S754_zero false).
  destruct (Prim2SF x) as [s|[|]| |[|] m e]; simpl; try discriminate;
    reflexivity.
Qed.

(** X14: a negative amount in a currency other than NGN is written with the
    minus sign after the dollar sign: for a positive [x], formatting [-x]
    gives "$-" followed by what [toFixed(2)] gives for [x]. *)
Theorem formatCurrency_negative (toLocaleString : float -> string)
    (x : float) (currency : string) :
  currency <> "NGN" -> (0 <? x)%float = true ->
  formatCurrency toLocaleString (- x) currency = "$-" ++ toFixed x 2.
Proof.
  intros N P. unfold formatCurrency.
  destruct (String.eqb_spec currency "NGN"); [contradiction|].
  rewrite (toFixed_opp x 2 P). reflexivity.
Qed.

Lemma formatCurrency_negative_witness :
  formatCurrency (fun _ => "") (PrimFloat.opp 12.5) "USD"
  = "$-" ++ toFixed 12.5 2.
Proof.
  apply (formatCurrency_negative (fun _ => "") 12.5 "USD");
    [discriminate | reflexivity].
Defined.

Lemma numeral_acc (d : Decimal.uint) (acc : positive) :
  numeral (Zpos acc) (NilEmpty.string_of_uint d)
  = Zpos (Pos.of_uint_acc d acc).
Proof.
  revert acc. induction d; intros acc; cbn [NilEmpty.string_of_uint numeral
    Pos.of_uint_acc]; try reflexivity; rewrite <- IHd; f_equal;
    match goal with
    | |- context [nat_of_ascii ?c] =>
        let v := eval vm_compute in (Z.of_nat (nat_of_ascii c)) in
        change (Z.of_nat (nat_of_ascii c)) with v
    end; lia.
Qed.

Lemma numeral_of_uint (d : Decimal.uint) :
  numeral 0 (NilEmpty.string_of_uint d) = Z.of_N (Pos.of_uint d).
Proof.
  induction d; cbn [NilEmpty.string_of_uint numeral Pos.of_uint];
    try reflexivity;
    match goal with
    | |- context [nat_of_ascii ?c] =>
        let v := eval vm_compute in (Z.of_nat (nat_of_ascii c)) in
        change (Z.of_nat (nat_of_ascii c)) with v
    end;
    [exact IHd | apply (numeral_acc d) ..].
Qed.

(** Reading the digits of a number gives the number back. *)
Lemma numeral_digits (n : Z) : (0 <= n)%Z -> numeral 0 (digits n) = n.
Proof.
  intros Hn. unfold digits, NilZero.string_of_uint.
  pose proof (DecimalN.Unsigned.of_to (Z.to_N n)) as R.
  unfold N.of_uint in R.
  destruct (N.to_uint (Z.to_N n)) eqn:E;
    try (rewrite <- E, numeral_of_uint, E, R; lia).
  simpl in R. simpl. lia.
Qed.

Lemma numeral_zeros (k : nat) (s : string) :
  numeral 0 (zeros k ++ s) = numeral 0 s.
Proof. induction k as [|k IH]; simpl; [reflexivity | exact IH]. Qed.

Lemma nearestScaled_nonneg (m : positive) (e : Z) (f : nat) :
  (0 <= nearestScaled m e f)%Z.
Proof.
  unfold nearestScaled. destruct (Z.leb_spec 0 e).
  - apply Z.mul_nonneg_nonneg; [|apply Z.pow_nonneg; lia].
    apply Z.mul_nonneg_nonneg; [lia | apply Z.pow_nonneg; lia].
  - apply Z.div_pos.
    + assert (0 <= Zpos m * 10 ^ Z.of_nat f)%Z
        by (apply Z.mul_nonneg_nonneg; [lia | apply Z.pow_nonneg; lia]).
      assert (0 <= 2 ^ (- e))%Z by (apply Z.pow_nonneg; lia). lia.
    + apply Z.pow_pos_nonneg; lia.
Qed.

(** The digits around the point of the fixed notation are those of [n]. *)
Lemma fixedNotation_value (n : Z) (f : nat) :
  (0 <= n)%Z -> (0 < f)%nat ->
  exists whole frac : string,
    fixedNotation n f = whole ++ "." ++ frac
    /\ String.length frac = f
    /\ numeral 0 (whole ++ frac) = n.
Proof.
  intros Hn Hf. unfold fixedNotation. destruct f as [|f']; [lia|].
  set (f := S f') in *.
  set (m' := if (String.length (digits n) <=? f)%nat
             then zeros (f + 1 - String.length (digits n)) ++ digits n
             else digits n).
  assert (V : numeral 0 m' = n).
  { unfold m'. destruct (_ <=? _)%nat;
      rewrite ?numeral_zeros; apply numeral_digits, Hn. }
  assert (L : (f + 1 <= String.length m')%nat).
  { unfold m'. destruct (Nat.leb_spec (String.length (digits n)) f).
    - rewrite length_append, length_zeros. lia.
    - lia. }
  exists (substring 0 (String.length m' - f) m'),
         (substring (String.length m' - f) f m').
  split; [reflexivity|]. split; [apply length_substring; lia|].
  transitivity (numeral 0 m'); [f_equal | exact V].
  etransitivity;
    [|symmetry; apply (substring_split m' (String.length m' - f))].
  do 2 f_equal. lia.
Qed.

(** X15: for a non-negative amount below 10^21 in a currency other than
    NGN, the digits shown, read without the point, are the amount in cents
    rounded to the nearest whole cent, a half cent going up. *)
Theorem formatCurrency_nearest_cent (toLocaleString : float -> string)
    (amount : float) (currency : string) :
  currency <> "NGN" ->
  (0 <=? amount)%float = true -> (amount <? 1e21)%float = true ->
  exists whole cents : string,
    formatCurrency toLocaleString amount currency
    = "$" ++ whole ++ "." ++ cents
    /\ String.length cents = 2
    /\ nearestTo amount 100 (numeral 0 (whole ++ cents)).
Proof.
  intros N H0 H1. unfold formatCurrency.
  destruct (String.eqb_spec currency "NGN"); [contradiction|].
  pose proof (fixedRange_of_order amount H0 H1) as R.
  unfold fixedRange in R. unfold toFixed, nearestTo.
  destruct (Prim2SF amount) as [s|s| |[|] m e]; try discriminate.
  - destruct (fixedNotation_value 0 2) as (whole & cents & E & L & V);
      [lia | lia |].
    exists whole, cents. rewrite E. auto.
  - apply negb_true_iff in R. rewrite R.
    destruct (fixedNotation_value (nearestScaled m e 2) 2)
      as (whole & cents & E & L & V);
      [apply nearestScaled_nonneg | lia |].
    exists whole, cents. rewrite E, V.
    split; [reflexivity|]. split; [exact L|].
    apply (nearestScaled_nearest m e 2).
Qed.

Lemma formatCurrency_nearest_cent_witness :
  exists whole cents : string,
    formatCurrency (fun _ => "") 1234.5 "USD" = "$" ++ whole ++ "." ++ cents
    /\ String.length cents = 2
    /\ nearestTo 1234.5 100 (numeral 0 (whole ++ cents)).
Proof.
  apply (formatCurrency_nearest_cent (fun _ => "") 1234.5 "USD");
    [discriminate | reflexivity | reflexivity].
Defined.

(** *** The success rate at its two ends *)

Lemma digits2_pos_lower (m : positive) :
  (2 ^ (Zpos (digits2_pos m) - 1) <= Zpos m)%Z.
Proof.
  induction m as [p IH|p IH|]; simpl digits2_pos;
    rewrite ?Pos2Z.inj_succ; try (simpl; lia);
    replace (Z.succ (Zpos (digits2_pos p)) - 1)%Z
      with (Z.succ (Zpos (digits2_pos p) - 1)) by lia;
    rewrite Z.pow_succ_r by lia; lia.
Qed.

Lemma digits2_pos_iter (p k : positive) :
  digits2_pos (Pos.iter xO p k) = (digits2_pos p + k)%positive.
Proof.
  induction k as [|k IH] using Pos.peano_ind.
  - simpl. lia.
  - rewrite Pos.iter_succ. simpl. rewrite IH. lia.
Qed.

(** A significand of 53 bits with an exponent in range is left as it is by
    the rounding. *)
Lemma binary_round_aux_canonical (mz : positive) (ez : Z) :
  Zpos (digits2_pos mz) = 53%Z -> (-1074 <= ez <= 971)%Z ->
  binary_round_aux prec emax false (Zpos mz) ez loc_Exact
  = S754_finite false mz ez.
Proof.
  intros D B. unfold binary_round_aux, shr_fexp, shr_record_of_loc, Zdigits2.
  rewrite D.
  match goal with |- context [shr _ _ ?n] =>
    assert (F : n = 0%Z) by (unfold fexp, SpecFloat.emin, prec, emax; lia);
    rewrite F end.
  cbn [shr shr_m round_nearest_even loc_of_shr_record shr_r shr_s].
  rewrite D.
  match goal with |- context [shr _ _ ?n] =>
    assert (F' : n = 0%Z) by (unfold fexp, SpecFloat.emin, prec, emax; lia);
    rewrite F' end.
  cbn [shr shr_m].
  destruct (Z.leb_spec ez (emax - prec)) as [|H]; [reflexivity|].
  unfold emax, prec in H. lia.
Qed.

(** The Number of a length between 1 and 2^53 is a positive finite number
    with a full significand. *)
Lemma NumberOfLength_finite (n : nat) :
  (0 < n)%nat -> (Z.of_nat n < 2 ^ 53)%Z ->
  exists m e, Prim2SF (NumberOfLength n) = S754_finite false m e
              /\ Zpos (digits2_pos m) = 53%Z.
Proof.
  intros Hn B. unfold NumberOfLength.
  rewrite of_uint63_spec, Uint63.of_Z_spec.
  assert (W : Uint63.wB = 9223372036854775808%Z) by reflexivity.
  rewrite Z.mod_small by (rewrite W; lia).
  destruct (Z.of_nat n) as [|p|p] eqn:E; try lia.
  unfold binary_normalize, binary_round.
  pose proof (digits2_pos_lower p) as L.
  assert (D : (Zpos (digits2_pos p) <= 53)%Z).
  { destruct (Z.le_gt_cases (Zpos (digits2_pos p)) 53) as [|G];
      [assumption|].
    assert (2 ^ 53 <= 2 ^ (Zpos (digits2_pos p) - 1))%Z
      by (apply Z.pow_le_mono_r; lia).
    lia. }
  match goal with |- context [shl_align _ _ ?target] =>
    assert (F : target = (Zpos (digits2_pos p) - 53)%Z)
      by (unfold fexp, SpecFloat.emin, prec, emax; lia);
    rewrite F end.
  unfold shl_align.
  match goal with
  | |- context [match ?scrut with Z0 => _ | Zpos _ => _ | Zneg _ => _ end] =>
      destruct scrut as [|j|j] eqn:K
  end; try lia.
  - exists p, 0%Z. split; [|lia].
    apply binary_round_aux_canonical; lia.
  - eexists _, _. split.
    + apply binary_round_aux_canonical; [|lia].
      rewrite digits2_pos_iter. lia.
    + rewrite digits2_pos_iter. lia.
Qed.

(** A finite number with a full significand divided by itself is 1. *)
Lemma SFdiv_self (m : positive) (e : Z) :
  Zpos (digits2_pos m) = 53%Z ->
  SFdiv prec emax (S754_finite false m e) (S754_finite false m e)
  = S754_finite false 4503599627370496 (-52).
Proof.
  intros D. unfold SFdiv, SFdiv_core_binary, Zdigits2. rewrite D.
  match goal with |- context [Z.div_eucl ?a _] =>
    assert (A : a = (2 ^ 53 * Zpos m)%Z) end.
  { match goal with
    | |- context [match ?s with Z0 => _ | Zpos _ => _ | Zneg _ => _ end = _] =>
        assert (S : s = 53%Z)
          by (unfold fexp, SpecFloat.emin, prec, emax; lia);
        rewrite S
    end.
    rewrite Z.shiftl_mul_pow2 by lia. lia. }
  rewrite A.
  assert (Q : Z.div_eucl (2 ^ 53 * Zpos m) (Zpos m) = ((2 ^ 53)%Z, 0%Z)).
  { pose proof (Z.div_mul (2 ^ 53) (Zpos m) ltac:(lia)) as Q1.
    pose proof (Z.mod_mul (2 ^ 53) (Zpos m) ltac:(lia)) as Q2.
    unfold Z.div, Z.modulo in Q1, Q2.
    destruct (Z.div_eucl (2 ^ 53 * Zpos m) (Zpos m)). simpl in *.
    congruence. }
  rewrite Q.
  match goal with |- context [binary_round_aux _ _ _ _ ?x ?l] =>
    assert (E : x = (-53)%Z)
      by (unfold fexp, SpecFloat.emin, prec, emax; lia);
    assert (L : l = loc_Exact)
      by (unfold new_location, new_location_even, new_location_odd;
          destruct (Z.even _); reflexivity);
    rewrite E, L
  end.
  reflexivity.
Qed.

(** X16: the success rate has two spellings of zero: the empty list gives
    "0%", but a list that is not empty (and shorter than 2^53) in which no
    payment is completed gives "0.0%". *)
Theorem successRate_none_completed (payments : list Payment) :
  payments <> [] -> (Z.of_nat (List.length payments) < 2 ^ 53)%Z ->
  completedCount payments = 0%nat ->
  successRate payments = "0.0%" /\ successRate [] = "0%".
Proof.
  intros N B C. split; [|reflexivity].
  unfold successRate. rewrite C.
  assert (P : (0 < List.length payments)%nat)
    by (destruct payments; [contradiction | simpl; lia]).
  apply Nat.ltb_lt in P. rewrite P. apply Nat.ltb_lt in P.
  destruct (NumberOfLength_finite _ P B) as (m & e & E & _).
  assert (Z0 : Prim2SF (NumberOfLength 0
                        / NumberOfLength (List.length payments) * 100)
               = S754_zero false).
  { rewrite mul_spec, div_spec, E. reflexivity. }
  unfold toFixed. rewrite Z0. reflexivity.
Qed.

Lemma successRate_none_completed_witness :
  successRate [samplePayment "failed" 25; samplePayment "pending" 5]
  = "0.0%".
Proof.
  apply (successRate_none_completed
           [samplePayment "failed" 25; samplePayment "pending" 5]);
    [discriminate | vm_compute; reflexivity | reflexivity].
Defined.

(** X17: when every payment of a list that is not empty (and shorter than
    2^53) is completed, the success rate is "100.0%". *)
Theorem successRate_all_completed (payments : list Payment) :
  payments <> [] -> (Z.of_nat (List.length payments) < 2 ^ 53)%Z ->
  Forall (fun p => isPaid p = true) payments ->
  successRate payments = "100.0%".
Proof.
  intros N B A. unfold successRate, completedCount.
  apply filter_fixpoint in A. rewrite A.
  assert (P : (0 < List.length payments)%nat)
    by (destruct payments; [contradiction | simpl; lia]).
  apply Nat.ltb_lt in P. rewrite P. apply Nat.ltb_lt in P.
  destruct (NumberOfLength_finite _ P B) as (m & e & E & D).
  assert (One : (NumberOfLength (List.length payments)
                 / NumberOfLength (List.length payments))%float = 1%float).
  { apply Prim2SF_inj. rewrite div_spec, E.
    unfold SF64div. rewrite (SFdiv_self m e D). reflexivity. }
  rewrite One. vm_compute. reflexivity.
Qed.

Lemma successRate_all_completed_witness :
  successRate [samplePayment "PAID" 25; samplePayment "Completed" 5]
  = "100.0%".
Proof.
  apply (successRate_all_completed
           [samplePayment "PAID" 25; samplePayment "Completed" 5]);
    [discriminate | vm_compute; reflexivity |].
  repeat constructor.
Defined.

(* ================================================================== *)
(** ** Further properties of the loading spinner                       *)
(* ================================================================== *)

(** *** Any history of ticks and renders *)

Lemma fire_monotone (w : LS.World) (t : LS.Timer) :
  (LS.timeoutReached (LS.state w) = true ->
   LS.timeoutReached (LS.state (LS.fire w t)) = true)
  /\ (LS.loadingTime (LS.state w)
      <= LS.loadingTime (LS.state (LS.fire w t)))%Z.
Proof.
  unfold LS.fire. destruct (LS.isActive _ _); [|split; [auto | lia]].
  destruct (LS.callback t); simpl; split; auto; lia.
Qed.

Lemma fold_fire_monotone (ts : list LS.Timer) (w : LS.World) :
  (LS.timeoutReached (LS.state w) = true ->
   LS.timeoutReached (LS.state (fold_left LS.fire ts w)) = true)
  /\ (LS.loadingTime (LS.state w)
      <= LS.loadingTime (LS.state (fold_left LS.fire ts w)))%Z.
Proof.
  revert w. induction ts as [|t ts IH]; intros w; simpl; [split; [auto|lia]|].
  destruct (fire_monotone w t) as [F1 F2].
  destruct (IH (LS.fire w t)) as [I1 I2]. split; [auto | lia].
Qed.

Lemma rerender_state (T : Z) (w : LS.World) :
  LS.state (LS.rerender T w) = LS.state w
  /\ LS.console (LS.rerender T w) = LS.console w
  /\ LS.now (LS.rerender T w) = LS.now w.
Proof.
  unfold LS.rerender, LS.effect, LS.runCleanup.
  destruct (T =? LS.timeout w)%Z; [repeat split|].
  destruct (LS.cleanup w) as [[a b]|]; repeat split.
Qed.

Lemma mount_ticking (T : Z) : LS.ticking (LS.mount T).
Proof.
  exists 1%nat, 2%nat, 1000%Z,
    [LS.mkTimer 1 (0 + LS.timerDelay T) None LS.ReachTimeout].
  split; [reflexivity|]. split; [discriminate|]. split; [reflexivity|].
  split; [right; eexists; reflexivity|].
  repeat split; cbn; lia.
Qed.

Lemma tick_ticking (w : LS.World) : LS.ticking w -> LS.ticking (LS.tick w).
Proof.
  intros (a & b & next & pending & C & N & Ts & P & H1 & H2 & H3).
  destruct w as [now0 timers0 nh to st co cl].
  cbn [LS.cleanup LS.timers LS.now LS.state] in *. subst.
  assert (Eba : (b =? a)%nat = false) by (apply Nat.eqb_neq; congruence).
  assert (Eab : (a =? b)%nat = false) by (apply Nat.eqb_neq; congruence).
  unfold LS.tick.
  cbn [LS.now LS.timers LS.nextHandle LS.timeout LS.state LS.console
       LS.cleanup].
  destruct P as [-> | [at_ ->]]; cbn [app filter LS.due].
  - destruct (Z.leb_spec next (now0 + 1)) as [D|D]; spin Eab Eba.
    + exists a, b, (next + 1000)%Z, [].
      cbn [LS.cleanup LS.timers LS.now LS.state LS.loadingTime app].
      repeat split; auto; lia.
    + exists a, b, next, [].
      cbn [LS.cleanup LS.timers LS.now LS.state LS.loadingTime app].
      repeat split; auto; lia.
  - destruct (Z.leb_spec at_ (now0 + 1)) as [A|A];
    destruct (Z.leb_spec next (now0 + 1)) as [D|D]; spin Eab Eba.
    + exists a, b, (next + 1000)%Z, [].
      cbn [LS.cleanup LS.timers LS.now LS.state LS.loadingTime app].
      repeat split; auto; lia.
    + exists a, b, next, [].
      cbn [LS.cleanup LS.timers LS.now LS.state LS.loadingTime app].
      repeat split; auto; lia.
    + exists a, b, (next + 1000)%Z, [LS.mkTimer a at_ None LS.ReachTimeout].
      cbn [LS.cleanup LS.timers LS.now LS.state LS.loadingTime app].
      repeat split; auto; try lia. right; eexists; reflexivity.
    + exists a, b, next, [LS.mkTimer a at_ None LS.ReachTimeout].
      cbn [LS.cleanup LS.timers LS.now LS.state LS.loadingTime app].
      repeat split; auto; try lia. right; eexists; reflexivity.
Qed.

Lemma rerender_changed (T : Z) (now0 : Z) (ts : list LS.Timer) (nh : nat)
    (to : Z) (st : LS.State) (co : list string) (a b : nat) :
  T <> to ->
  LS.rerender T (LS.mkWorld now0 ts nh to st co (Some (a, b)))
  = LS.mkWorld now0
      (List.app
         (List.app
            (filter (fun t => negb (LS.handle t =? b)%nat)
                    (filter (fun t => negb (LS.handle t =? a)%nat) ts))
            [LS.mkTimer nh (now0 + LS.timerDelay T) None LS.ReachTimeout])
         [LS.mkTimer (S nh) (now0 + 1000) (Some 1000%Z) LS.CountSecond])
      (S (S nh)) T st co (Some (nh, S nh)).
Proof.
  intros N. unfold LS.rerender. cbn [LS.timeout].
  destruct (Z.eqb_spec T to) as [|_]; [contradiction|]. reflexivity.
Qed.

Lemma rerender_ticking (T : Z) (w : LS.World) :
  LS.ticking w -> LS.ticking (LS.rerender T w).
Proof.
  intros K.
  destruct (Z.eq_dec T (LS.timeout w)) as [E|N].
  { unfold LS.rerender. rewrite E, Z.eqb_refl. exact K. }
  destruct K as (a & b & next & pending & C & Nab & Ts & P & H1 & H2 & H3).
  destruct w as [now0 timers0 nh to st co cl].
  cbn [LS.cleanup LS.timers LS.now LS.state LS.timeout] in *. subst.
  assert (Eba : (b =? a)%nat = false) by (apply Nat.eqb_neq; congruence).
  rewrite (rerender_changed T now0 _ nh to st co a b N).
  exists nh, (S nh), (now0 + 1000)%Z,
    [LS.mkTimer nh (now0 + LS.timerDelay T) None LS.ReachTimeout].
  cbn [LS.cleanup LS.timers LS.now LS.state LS.loadingTime].
  split; [reflexivity|]. split; [lia|]. split.
  - destruct P as [-> | [at_ ->]];
      cbn [app filter LS.handle negb]; rewrite ?Nat.eqb_refl, ?Eba;
      cbn [app filter LS.handle negb]; rewrite ?Nat.eqb_refl;
      reflexivity.
  - split; [right; eexists; reflexivity|]. repeat split; lia.
Qed.

Lemma fire_now (w : LS.World) (t : LS.Timer) :
  LS.now (LS.fire w t) = LS.now w.
Proof.
  unfold LS.fire. destruct (LS.isActive _ _); [|reflexivity].
  destruct (LS.callback t); reflexivity.
Qed.

Lemma fold_fire_now (ts : list LS.Timer) (w : LS.World) :
  LS.now (fold_left LS.fire ts w) = LS.now w.
Proof.
  revert w. induction ts as [|t ts IH]; intros w; simpl; [reflexivity|].
  rewrite IH. apply fire_now.
Qed.

Lemma tick_now (w : LS.World) : LS.now (LS.tick w) = (LS.now w + 1)%Z.
Proof. unfold LS.tick. rewrite fold_fire_now. reflexivity. Qed.

Lemma history_ticking (evs : list LS.Event) (w : LS.World) :
  LS.ticking w -> LS.ticking (LS.history evs w).
Proof.
  revert w. induction evs as [|ev evs IH]; intros w K; simpl; [exact K|].
  apply IH. destruct ev; [apply tick_ticking | apply rerender_ticking];
    exact K.
Qed.

Lemma unmount_ticking (w : LS.World) :
  LS.ticking w ->
  LS.timers (LS.unmount w) = []
  /\ LS.state (LS.unmount w) = LS.state w
  /\ LS.console (LS.unmount w) = LS.console w.
Proof.
  intros (a & b & next & pending & C & N & Ts & P & _).
  assert (Eba : (b =? a)%nat = false) by (apply Nat.eqb_neq; congruence).
  unfold LS.unmount, LS.runCleanup. rewrite C.
  unfold LS.clearInterval, LS.clearTimeout, LS.withCleanup, LS.withTimers.
  cbn [LS.timers LS.state LS.console]. rewrite Ts.
  split; [|split; reflexivity].
  destruct P as [-> | [at_ ->]];
    cbn [app filter LS.handle negb]; rewrite ?Nat.eqb_refl, ?Eba;
    cbn [app filter LS.handle negb]; rewrite ?Nat.eqb_refl;
    reflexivity.
Qed.

(** X18: whatever the timers and the state are, no tick and no render ever
    takes timeoutReached back to false or makes the elapsed counter
    smaller. *)
Theorem spinner_state_monotone (evs : list LS.Event) (w : LS.World) :
  (LS.timeoutReached (LS.state w) = true ->
   LS.timeoutReached (LS.state (LS.history evs w)) = true)
  /\ (LS.loadingTime (LS.state w)
      <= LS.loadingTime (LS.state (LS.history evs w)))%Z.
Proof.
  revert w. induction evs as [|ev evs IH]; intros w; simpl;
    [split; [auto | lia]|].
  destruct (IH (LS.handleEvent w ev)) as [I1 I2].
  assert (S : (LS.timeoutReached (LS.state w) = true ->
               LS.timeoutReached (LS.state (LS.handleEvent w ev)) = true)
              /\ (LS.loadingTime (LS.state w)
                  <= LS.loadingTime (LS.state (LS.handleEvent w ev)))%Z).
  { destruct ev as [|T]; simpl.
    - unfold LS.tick.
      match goal with |- context [fold_left LS.fire ?ts ?w1] =>
        exact (fold_fire_monotone ts w1) end.
    - destruct (rerender_state T w) as (-> & _). split; [auto | lia]. }
  destruct S as [S1 S2]. split; [auto | lia].
Qed.

(** X19: a spinner mounted with any timeout, after any sequence of ticks
    and of renders with any timeout props, holds at most two timers; its
    unmount clears them all, and from then on neither the state nor the
    console changes, however long time goes on. *)
Theorem spinner_never_leaks (T : Z) (evs : list LS.Event) (later : nat) :
  (List.length (LS.timers (LS.history evs (LS.mount T))) <= 2)%nat
  /\ LS.timers (LS.unmount (LS.history evs (LS.mount T))) = []
  /\ LS.state (LS.advance later (LS.unmount (LS.history evs (LS.mount T))))
     = LS.state (LS.history evs (LS.mount T))
  /\ LS.console (LS.advance later
                   (LS.unmount (LS.history evs (LS.mount T))))
     = LS.console (LS.history evs (LS.mount T)).
Proof.
  pose proof (history_ticking evs _ (mount_ticking T)) as K.
  destruct (unmount_ticking _ K) as (U1 & U2 & U3).
  destruct (advance_idle _ later U1) as (_ & A2 & A3).
  rewrite A2, A3, U2, U3. split; [|repeat split; exact U1].
  destruct K as (a & b & next & pending & _ & _ & Ts & P & _).
  rewrite Ts. destruct P as [-> | [at_ ->]]; simpl; lia.
Qed.

Lemma history_now (evs : list LS.Event) (w : LS.World) :
  LS.now (LS.history evs w)
  = (LS.now w
     + Z.of_nat (List.length
                   (filter (fun ev => match ev with
                                      | LS.Tick => true
                                      | LS.Rerender _ => false
                                      end) evs)))%Z.
Proof.
  revert w. induction evs as [|ev evs IH]; intros w; simpl; [lia|].
  rewrite IH. destruct ev as [|T]; simpl.
  - rewrite tick_now. lia.
  - destruct (rerender_state T w) as (_ & _ & ->). lia.
Qed.

(** X20: the elapsed counter never runs ahead of the clock: after any
    sequence of ticks and renders since the mount, a thousand times the
    counter is at most the number of milliseconds that have passed. *)
Theorem spinner_counter_never_ahead (T : Z) (evs : list LS.Event) :
  (1000 * LS.loadingTime (LS.state (LS.history evs (LS.mount T)))
   <= Z.of_nat (List.length
                  (filter (fun ev => match ev with
                                     | LS.Tick => true
                                     | LS.Rerender _ => false
                                     end) evs)))%Z.
Proof.
  pose proof (history_ticking evs _ (mount_ticking T)) as K.
  destruct K as (a & b & next & pending & _ & _ & _ & _ & _ & _ & H).
  rewrite history_now in H. simpl in H. exact H.
Qed.

(** *** A render with a new timeout *)

Lemma rerender_spinnerAt (T T' : Z) (t : nat) :
  T' <> T ->
  LS.rerender T' (LS.spinnerAt T t)
  = LS.runningAt (Z.of_nat t) (LS.state (LS.spinnerAt T t))
                 (LS.console (LS.spinnerAt T t)) 3 T' 0.
Proof.
  intros N. unfold LS.spinnerAt, LS.runningAt. cbv zeta.
  rewrite (rerender_changed T' _ _ 3 T _ _ 1 2 N).
  cbn [LS.state LS.console LS.timeoutReached LS.loadingTime Z.of_nat].
  rewrite (firstTurn_pos T').
  destruct (Z.leb_spec (LS.firstTurn T') 0) as [H|_];
    [unfold LS.firstTurn in H; lia|].
  apply world_ext;
    cbn [LS.now LS.timers LS.nextHandle LS.timeout LS.state LS.console
         LS.cleanup];
    rewrite ?orb_false_r, ?app_nil_r; try reflexivity; try lia.
  - destruct (Z.of_nat t <? LS.firstTurn T)%Z; reflexivity.
  - f_equal. change (0 / 1000)%Z with 0%Z. lia.
Qed.

(** X21: a render with another timeout [T'], [t] milliseconds after the
    mount, starts both timers again and keeps the state: [d] milliseconds
    later the elapsed counter is the full seconds before the render plus
    the full seconds after it (the part of a second that was running is
    lost), timeoutReached is true if it was or if the delay the platform
    gives the new timer has passed since the render, and the timeout message
    is printed once for each of the two.  The delay of a timer is its
    timeout when that is between 1 and 2^31 - 1 milliseconds; another
    timeout is read as a signed 32-bit number, raised to 0 when negative,
    and its timer runs at the first timer turn. *)
Theorem spinner_restart (T T' : Z) (t d : nat) :
  T' <> T ->
  LS.loadingTime
    (LS.state (LS.advance d (LS.rerender T' (LS.advance t (LS.mount T)))))
  = (Z.of_nat t / 1000 + Z.of_nat d / 1000)%Z
  /\ LS.timeoutReached
       (LS.state (LS.advance d (LS.rerender T' (LS.advance t (LS.mount T)))))
     = (LS.firstTurn T <=? Z.of_nat t)%Z || (LS.firstTurn T' <=? Z.of_nat d)%Z
  /\ LS.console (LS.advance d (LS.rerender T' (LS.advance t (LS.mount T))))
     = List.app
         (if (LS.firstTurn T <=? Z.of_nat t)%Z
          then ["Loading timeout reached"] else [])
         (if (LS.firstTurn T' <=? Z.of_nat d)%Z
          then ["Loading timeout reached"] else [])
  /\ ((1 <= T < 2 ^ 31)%Z -> (1 <= T' < 2 ^ 31)%Z ->
      LS.timeoutReached
        (LS.state (LS.advance d (LS.rerender T' (LS.advance t (LS.mount T)))))
      = (T <=? Z.of_nat t)%Z || (T' <=? Z.of_nat d)%Z
      /\ LS.console
           (LS.advance d (LS.rerender T' (LS.advance t (LS.mount T))))
         = List.app
             (if (T <=? Z.of_nat t)%Z then ["Loading timeout reached"]
              else [])
             (if (T' <=? Z.of_nat d)%Z then ["Loading timeout reached"]
              else [])).
Proof.
  intros N.
  rewrite (advance_mount T t), (rerender_spinnerAt T T' t N),
    (advance_runningAt _ _ _ _ _ d).
  split; [reflexivity|]. split; [reflexivity|]. split; [reflexivity|].
  intros R R'.
  pose proof (firstTurn_in_range T R) as E.
  pose proof (firstTurn_in_range T' R') as E'.
  split.
  - transitivity ((LS.firstTurn T <=? Z.of_nat t)%Z
                  || (LS.firstTurn T' <=? Z.of_nat d)%Z);
      [reflexivity | rewrite E, E'; reflexivity].
  - transitivity
      (List.app
         (if (LS.firstTurn T <=? Z.of_nat t)%Z
          then ["Loading timeout reached"] else [])
         (if (LS.firstTurn T' <=? Z.of_nat d)%Z
          then ["Loading timeout reached"] else []));
      [reflexivity | rewrite E, E'; reflexivity].
Qed.

Lemma spinner_restart_witness :
  LS.loadingTime
    (LS.state (LS.advance 600 (LS.rerender 2000
                                 (LS.advance 1600 (LS.mount 1000)))))
  = 1%Z
  /\ LS.console (LS.advance 2000 (LS.rerender 2000
                                    (LS.advance 1600 (LS.mount 1000))))
     = ["Loading timeout reached"; "Loading timeout reached"].
Proof.
  split.
  - destruct (spinner_restart 1000 2000 1600 600) as (H & _); [lia|].
    rewrite H. reflexivity.
  - destruct (spinner_restart 1000 2000 1600 2000) as (_ & _ & _ & H);
      [lia|].
    destruct (H ltac:(lia) ltac:(lia)) as (_ & H').
    rewrite H'. reflexivity.
Defined.
